(** * capo298bot: opening-book move service, book builders and UCI relay

    A shallow embedding of the Python sources

      - [move-service/app.py]                         (module [MoveService])
      - [tools/build_opening_book.py]                 (module [BookBuilder])
      - [tools/build_opening_book_capo_turnonly.py]   (module [BookBuilderTurnOnly])
      - [uci-wrapper/capo298bot_uci.py]               (module [UciWrapper])

    followed by the properties of the design document that were checked
    against them.  Python dictionaries are association lists in insertion
    order, Python [int] is [Z], exceptions are an explicit [Raise] result. *)

From Stdlib Require Import List String Ascii ZArith QArith Bool Lia.
From Stdlib Require Import Permutation Sorted.
Import ListNotations.

Local Open Scope string_scope.
Local Open Scope list_scope.
Local Open Scope Z_scope.

(* ================================================================== *)
(** * Python built-ins used by the sources *)
(* ================================================================== *)

Module PyStr.

(** [str.isspace] on one character.  Texts are sequences of [ascii]
    characters, which covers position texts and protocol lines; there
    Python's whitespace is TAB..CR (9-13), FS..US (28-31) and the blank
    (32). *)
Definition isspace (c : ascii) : bool :=
  let n := N_of_ascii c in
  ((9 <=? n) && (n <=? 13) || (28 <=? n) && (n <=? 31) || (n =? 32))%N.

Definition push (w : list ascii) (ws : list (list ascii)) : list (list ascii) :=
  match w with
  | [] => ws
  | _ :: _ => w :: ws
  end.

(** One right-to-left pass: the word that is still open at the head of
    the text, and the words completed behind it. *)
Fixpoint scan (s : list ascii) : list ascii * list (list ascii) :=
  match s with
  | [] => ([], [])
  | c :: s' =>
      let (w, ws) := scan s' in
      if isspace c then ([], push w ws) else (c :: w, ws)
  end.

(** [s.split()] without arguments: the maximal runs of non-whitespace. *)
Definition split_words (s : list ascii) : list (list ascii) :=
  let (w, ws) := scan s in push w ws.

Fixpoint lstrip (s : list ascii) : list ascii :=
  match s with
  | [] => []
  | c :: s' => if isspace c then lstrip s' else s
  end.

Definition rstrip (s : list ascii) : list ascii := rev (lstrip (rev s)).

(** [s.strip()] without arguments. *)
Definition strip_chars (s : list ascii) : list ascii := rstrip (lstrip s).

(** [sep.join(parts)]. *)
Fixpoint join_chars (sep : list ascii) (parts : list (list ascii)) : list ascii :=
  match parts with
  | [] => []
  | [p] => p
  | p :: ps => p ++ sep ++ join_chars sep ps
  end.

Fixpoint startswith_chars (p s : list ascii) : bool :=
  match p, s with
  | [], _ => true
  | _ :: _, [] => false
  | a :: p', b :: s' => Ascii.eqb a b && startswith_chars p' s'
  end.

Definition split (s : string) : list string :=
  map string_of_list_ascii (split_words (list_ascii_of_string s)).

Definition strip (s : string) : string :=
  string_of_list_ascii (strip_chars (list_ascii_of_string s)).

Definition join (sep : string) (parts : list string) : string :=
  string_of_list_ascii
    (join_chars (list_ascii_of_string sep) (map list_ascii_of_string parts)).

Definition startswith (s p : string) : bool :=
  startswith_chars (list_ascii_of_string p) (list_ascii_of_string s).

(** [s.replace(p, "")] for a non-empty [p]: every occurrence of [p],
    found left to right without overlap, is dropped.  [skip] counts the
    characters of an occurrence still to be dropped. *)
Fixpoint remove_chars (p s : list ascii) (skip : nat) : list ascii :=
  match s with
  | [] => []
  | c :: s' =>
      match skip with
      | S k => remove_chars p s' k
      | O =>
          if startswith_chars p s then remove_chars p s' (Nat.pred (List.length p))
          else c :: remove_chars p s' 0
      end
  end.

Definition remove (s p : string) : string :=
  string_of_list_ascii
    (remove_chars (list_ascii_of_string p) (list_ascii_of_string s) 0).

(** [xs.index(x)] on a list of texts; [None] for [ValueError]. *)
Fixpoint index (xs : list string) (x : string) : option nat :=
  match xs with
  | [] => None
  | y :: ys => if String.eqb y x then Some O else option_map S (index ys x)
  end.

(** [len(xs)] as a Python integer. *)
Definition len {A} (xs : list A) : Z := Z.of_nat (List.length xs).

(** Truthiness of a [str]. *)
Definition truthy (s : string) : bool := negb (String.eqb s "").

End PyStr.

(** Results of code that may raise. *)
Inductive exn : Type :=
| ValueError
| IndexError
| SystemExit.

Inductive result (A : Type) : Type :=
| Ok (a : A)
| Raise (e : exn).
Arguments Ok {A} a.
Arguments Raise {A} e.

(** A [dict] with string keys, in insertion order. *)
Definition dict (V : Type) : Type := list (string * V).

Fixpoint dict_get {V} (d : dict V) (k : string) : option V :=
  match d with
  | [] => None
  | (k', v) :: d' => if String.eqb k' k then Some v else dict_get d' k
  end.

Definition keys {V} (d : dict V) : list string := map fst d.
Definition values {V} (d : dict V) : list V := map snd d.

(** [sorted(d.items(), key=lambda kv: kv[1], reverse=True)]:
    counts descending; the sort is stable, so equal counts keep their
    order in the mapping. *)
Fixpoint insert_desc (x : string * Z) (l : list (string * Z)) : list (string * Z) :=
  match l with
  | [] => [x]
  | y :: l' => if snd x <? snd y then y :: insert_desc x l' else x :: l
  end.

Definition sorted_desc (items : list (string * Z)) : list (string * Z) :=
  fold_right insert_desc [] items.

(** [d[k] += 1] on a [defaultdict(int)]: a key that is present keeps its
    place, a new key goes to the end with [0 + 1]. *)
Fixpoint incr (d : dict Z) (k : string) : dict Z :=
  match d with
  | [] => [(k, 1)]
  | (k', v) :: d' =>
      if String.eqb k' k then (k', v + 1) :: d' else (k', v) :: incr d' k
  end.

(** [d[k][u] += 1] on a [defaultdict(lambda: defaultdict(int))]. *)
Fixpoint incr2 (d : dict (dict Z)) (k u : string) : dict (dict Z) :=
  match d with
  | [] => [(k, incr [] u)]
  | (k', m) :: d' =>
      if String.eqb k' k then (k', incr m u) :: d' else (k', m) :: incr2 d' k u
  end.

(** JSON values, as [json.dumps] writes them and [json.load] reads them;
    an object keeps the order of its members. *)
#[warnings="-register-all"]
Inductive json : Type :=
| JNull
| JBool (b : bool)
| JInt (z : Z)
| JFloat (q : Q)
| JStr (s : string)
| JObj (members : list (string * json)).

Definition json_keys (j : json) : list string :=
  match j with
  | JObj members => map fst members
  | _ => []
  end.

Definition json_get (j : json) (k : string) : option json :=
  match j with
  | JObj members => dict_get members k
  | _ => None
  end.

(** What the builders use of the chess library.  A [HalfMove] is one step
    of the replay [for move in game.mainline_moves()]: [board.fen()] and
    [board.turn == chess.WHITE] before the move is pushed, and
    [move.uci()].  A [Game] is what [chess.pgn.read_game] returns; a
    [GameRecord] is one game object of the export, with its ["pgn"] text
    and the result of [pgn_to_game] on it ([None] for Python's [None]). *)
Record HalfMove : Type :=
  { hm_fen : string; hm_white_to_move : bool; hm_uci : string }.

Record Game : Type :=
  { headers_White : string; headers_Black : string; mainline_moves : list HalfMove }.

Record GameRecord : Type :=
  { pgn : string; pgn_to_game : option Game }.

(** The two counters of a builder: [move_counts] and [total_positions]. *)
Record Counters : Type :=
  { move_counts : dict (dict Z); total_positions : dict Z }.

Definition no_counts : Counters :=
  {| move_counts := []; total_positions := [] |}.

(** [total_positions[fen_key] += 1; move_counts[fen_key][uci] += 1]. *)
Definition count_move (st : Counters) (fen_key uci : string) : Counters :=
  {| move_counts := incr2 (move_counts st) fen_key uci;
     total_positions := incr (total_positions st) fen_key |}.

(** The loop that fills [positions_out]: per key of [move_counts], the
    pair of ["total"] and ["moves"]. *)
Definition positions_out (st : Counters) : dict (Z * dict Z) :=
  map (fun km : string * dict Z =>
         let (fen_key, moves_dict) := km in
         let total :=
           match dict_get (total_positions st) fen_key with
           | Some n => n
           | None => 0
           end in
         (fen_key, (total, sorted_desc moves_dict)))
      (move_counts st).

Definition json_counts (moves : dict Z) : json :=
  JObj (map (fun kc : string * Z => (fst kc, JInt (snd kc))) moves).

Definition json_positions (ps : dict (Z * dict Z)) : json :=
  JObj (map (fun e : string * (Z * dict Z) =>
               (fst e, JObj [("total", JInt (fst (snd e)));
                             ("moves", json_counts (snd (snd e)))]))
            ps).

(* ================================================================== *)
(** * move-service/app.py *)
(* ================================================================== *)

Module MoveService.

Definition normalize_fen (fen : string) : string :=
  let parts := PyStr.split fen in
  if PyStr.len parts <? 4 then PyStr.strip fen
  else PyStr.join " " (firstn 4 parts).

(** [sum(c for _, c in items)]. *)
Definition sum_counts (items : list (string * Z)) : Z :=
  fold_right (fun kc acc => snd kc + acc) 0 items.

(** The loop [for uci, c in items: s += c; if r <= s: return uci] of
    [weighted_choice], entered with running sum [s]; [None] when it
    falls through. *)
Fixpoint walk (items : list (string * Z)) (r s : Z) : option string :=
  match items with
  | [] => None
  | (uci, c) :: rest =>
      let s := s + c in
      if r <=? s then Some uci else walk rest r s
  end.

(** [list(moves.items())]: the pairs in the order the mapping holds them. *)
Definition items (moves : dict Z) : list (string * Z) := moves.

(** [weighted_choice(moves)].  [r] is the integer [random.randint(1,
    total)] returned; that call raises [ValueError] on the empty range
    [total < 1]. *)
Definition weighted_choice (moves : dict Z) (r : Z) : result string :=
  let items := items moves in
  let total := sum_counts items in
  if total <? 1 then Raise ValueError
  else
    match walk items r 0 with
    | Some uci => Ok uci
    | None =>
        match items with
        | (uci, _) :: _ => Ok uci
        | [] => Raise IndexError
        end
    end.


Record MoveRequest : Type :=
  { fen : string; ply : Z; mode : string }.

Record MoveResponse : Type :=
  { move : option string; source : string; confidence : Q }.

(** What [get_move] uses of a [chess.Board]: [board.fen()] and the UCI
    texts of [board.legal_moves]. *)
Record Board : Type :=
  { board_fen : string; legal_moves : list string }.

(** A value of the [positions] mapping: a JSON object whose keys
    ["total"] and ["moves"] may each be missing. *)
Record Entry : Type :=
  { e_total : option Z; e_moves : option (dict Z) }.

(** The thresholds of the book's ["meta"] object, each possibly missing. *)
Record Meta : Type :=
  { m_min_position_count : option Z;
    m_min_top_move_ratio : option Q;
    m_max_ply_cap : option Z }.

Definition get_default {A} (o : option A) (d : A) : A :=
  match o with Some a => a | None => d end.

(** [not entry]: an object without keys is falsy. *)
Definition entry_falsy (entry : Entry) : bool :=
  match e_total entry, e_moves entry with
  | None, None => true
  | _, _ => false
  end.

Definition is_empty {A} (l : list A) : bool :=
  match l with [] => true | _ :: _ => false end.

(** [max(moves.values())], evaluated on a non-empty mapping only. *)
Definition max_values (vs : list Z) : Z :=
  match vs with
  | [] => 0
  | v :: vs' => fold_left Z.max vs' v
  end.

Definition Qltb (x y : Q) : bool :=
  match (x ?= y)%Q with Lt => true | _ => false end.

Definition mem (x : string) (l : list string) : bool :=
  existsb (String.eqb x) l.

Definition source_of (res : result MoveResponse) : option string :=
  match res with Ok resp => Some (source resp) | Raise _ => None end.

Definition reject (reason : string) (conf : Q) : result MoveResponse :=
  Ok {| move := None; source := reason; confidence := conf |}.

(** [get_move(req)].  [chess_Board] is the constructor of the chess
    library ([None] when it raises), [positions] and [meta] are the
    loaded book, [r] is the draw made inside [weighted_choice]. *)
Definition get_move (chess_Board : string -> option Board)
    (positions : dict Entry) (meta : Meta)
    (req : MoveRequest) (r : Z) : result MoveResponse :=
  match chess_Board (fen req) with
  | None => reject "invalid_fen" 0
  | Some board =>
      let fen_key := normalize_fen (board_fen board) in
      match dict_get positions fen_key with
      | None => reject "no_book_hit" 0
      | Some entry =>
          if entry_falsy entry then reject "no_book_hit" 0
          else
            let total := get_default (e_total entry) 0 in
            let moves := get_default (e_moves entry) [] in
            if is_empty moves || (total <=? 0) then reject "empty_entry" 0
            else
              let min_position_count := get_default (m_min_position_count meta) 8 in
              let min_top_move_ratio := get_default (m_min_top_move_ratio meta) (55 # 100) in
              let max_ply_cap := get_default (m_max_ply_cap meta) 20 in
              if ply req >=? max_ply_cap then reject "ply_cap" 0
              else
                let top_move_count := max_values (values moves) in
                let top_ratio := (inject_Z top_move_count / inject_Z total)%Q in
                if total <? min_position_count then reject "below_min_count" top_ratio
                else if Qltb top_ratio min_top_move_ratio then reject "low_confidence" top_ratio
                else
                  match weighted_choice moves r with
                  | Raise e => Raise e
                  | Ok chosen =>
                      let legal_uci := legal_moves board in
                      if negb (mem chosen legal_uci) then
                        match find (fun kv => mem (fst kv) legal_uci) (sorted_desc moves) with
                        | Some (uci, _) =>
                            Ok {| move := Some uci; source := "opening_book";
                                  confidence := top_ratio |}
                        | None => reject "no_legal_book_move" top_ratio
                        end
                      else
                        Ok {| move := Some chosen; source := "opening_book";
                              confidence := top_ratio |}
                  end
      end
  end.

End MoveService.

(** The weighted draw in the words of the design document (decision
    chain, step 7): a draw in [[1, total]] for the entry's recorded
    [total], and a walk over the moves in count-descending order
    (insertion order at ties). *)
Module Design.

Definition weighted_choice (total : Z) (moves : dict Z) (r : Z) : option string :=
  if (1 <=? r) && (r <=? total)
  then MoveService.walk (sorted_desc moves) r 0
  else None.

End Design.

(* ================================================================== *)
(** * tools/build_opening_book.py *)
(* ================================================================== *)

Module BookBuilder.

Definition normalize_fen (fen : string) : string :=
  let parts := PyStr.split fen in
  if PyStr.len parts <? 4 then PyStr.strip fen
  else PyStr.join " " (firstn 4 parts).

(** [for move in game.mainline_moves()], entered at ply counter [ply]. *)
Fixpoint replay (max_ply_cap : Z) (moves : list HalfMove) (ply : Z)
    (st : Counters) : Counters :=
  match moves with
  | [] => st
  | move :: rest =>
      if ply >=? max_ply_cap then st
      else
        let fen_key := normalize_fen (hm_fen move) in
        let uci := hm_uci move in
        replay max_ply_cap rest (ply + 1) (count_move st fen_key uci)
  end.

(** One turn of [for g in games_iter]. *)
Definition process_game (max_ply_cap : Z) (st : Counters) (g : GameRecord) : Counters :=
  let pgn_text := pgn g in
  if negb (PyStr.truthy (PyStr.strip pgn_text)) then st
  else
    match pgn_to_game g with
    | None => st
    | Some game => replay max_ply_cap (mainline_moves game) 0 st
    end.

Definition aggregate (games : list GameRecord) (max_ply_cap : Z) : Counters :=
  fold_left (process_game max_ply_cap) games no_counts.

(** [build_opening_book]; [games] is what [iter_chesscom_games_from_zip]
    yields from the archive. *)
Definition build_opening_book (games : list GameRecord)
    (max_ply_cap min_position_count : Z) (min_top_move_ratio : Q) : result json :=
  match games with
  | [] => Raise SystemExit
  | _ :: _ =>
      let st := aggregate games max_ply_cap in
      let meta :=
        JObj [("player", JStr "capo298");
              ("source", JStr "Chess.com exports (zip)");
              ("adaptive", JBool true);
              ("min_position_count", JInt min_position_count);
              ("min_top_move_ratio", JFloat min_top_move_ratio);
              ("max_ply_cap", JInt max_ply_cap);
              ("fen_format", JStr "pieces side castling ep (no half/fullmove)")] in
      Ok (JObj [("meta", meta); ("positions", json_positions (positions_out st))])
  end.

End BookBuilder.

(* ================================================================== *)
(** * tools/build_opening_book_capo_turnonly.py *)
(* ================================================================== *)

Module BookBuilderTurnOnly.

Definition normalize_fen (fen : string) : string :=
  let parts := PyStr.split fen in
  if PyStr.len parts <? 4 then PyStr.strip fen
  else PyStr.join " " (firstn 4 parts).

(** [for move in game.mainline_moves()], entered at ply counter [ply]:
    a move is counted only when the player is the side to move. *)
Fixpoint replay (player_is_white : bool) (max_ply_cap : Z)
    (moves : list HalfMove) (ply : Z) (st : Counters) : Counters :=
  match moves with
  | [] => st
  | move :: rest =>
      if ply >=? max_ply_cap then st
      else
        let st' :=
          if hm_white_to_move move then
            if player_is_white
            then count_move st (normalize_fen (hm_fen move)) (hm_uci move)
            else st
          else
            if negb player_is_white
            then count_move st (normalize_fen (hm_fen move)) (hm_uci move)
            else st in
        replay player_is_white max_ply_cap rest (ply + 1) st'
  end.

(** The loop state: the counters, [skipped] and [used]. *)
Record Progress : Type :=
  { counters : Counters; skipped : Z; used : Z }.

(** One turn of [for g in games]. *)
Definition process_game (player : string) (max_ply_cap : Z)
    (p : Progress) (g : GameRecord) : Progress :=
  let pgn_text := pgn g in
  if negb (PyStr.truthy (PyStr.strip pgn_text)) then
    {| counters := counters p; skipped := skipped p + 1; used := used p |}
  else
    match pgn_to_game g with
    | None => {| counters := counters p; skipped := skipped p + 1; used := used p |}
    | Some game =>
        let white := headers_White game in
        let black := headers_Black game in
        if negb (String.eqb white player) && negb (String.eqb black player) then p
        else
          let player_is_white := String.eqb white player in
          {| counters :=
               replay player_is_white max_ply_cap (mainline_moves game) 0 (counters p);
             skipped := skipped p;
             used := used p + 1 |}
    end.

Definition aggregate (games : list GameRecord) (player : string) (max_ply_cap : Z) : Progress :=
  fold_left (process_game player max_ply_cap) games
    {| counters := no_counts; skipped := 0; used := 0 |}.

(** [build_opening_book]; [games] is what [iter_chesscom_games_from_zip]
    yields from the archive. *)
Definition build_opening_book (games : list GameRecord)
    (player : string) (max_ply_cap : Z) : result json :=
  match games with
  | [] => Raise SystemExit
  | _ :: _ =>
      let p := aggregate games player max_ply_cap in
      let meta :=
        JObj [("player", JStr player);
              ("source", JStr "Chess.com exports (zip)");
              ("note", JStr "Counts only moves where it's player's turn (fixes opponent-move contamination)");
              ("max_ply_cap", JInt max_ply_cap);
              ("fen_format", JStr "pieces side castling ep (no half/fullmove)")] in
      Ok (JObj [("meta", meta);
                ("positions", json_positions (positions_out (counters p)));
                ("stats", JObj [("games_seen", JInt (PyStr.len games));
                                ("games_used", JInt (used p));
                                ("games_skipped", JInt (skipped p))])])
  end.

End BookBuilderTurnOnly.

(* ================================================================== *)
(** * uci-wrapper/capo298bot_uci.py *)
(* ================================================================== *)

Module UciWrapper.

Definition DEFAULT_MOVETIME_MS : Z := 250.

(** One call of [self.proc.stdout.readline()]: the text it returns and the
    clock, in milliseconds, at which that text is there to be returned.
    The empty text is end of file; it stays at the head of the stream,
    every later [readline] finds it again. *)
Record Read : Type :=
  { at_ms : Z; text : string }.

(** The engine subprocess as the wrapper sees it: the commands written to
    its stdin, the reads its stdout will answer, and the wall clock.  Once
    [pending] is used up the subprocess writes nothing more and keeps its
    stdout open: a further [readline] does not return. *)
Record Engine : Type :=
  { sent : list string; pending : list Read; clock : Z }.

(** A call into the engine either returns, leaving the engine in a new
    state, or blocks for ever inside [readline]. *)
Inductive outcome (A : Type) : Type :=
| Returns (a : A) (sf : Engine)
| Blocks.
Arguments Returns {A} a sf.
Arguments Blocks {A}.

Definition _send (sf : Engine) (cmd : string) : Engine :=
  {| sent := sent sf ++ [cmd]; pending := pending sf; clock := clock sf |}.

(** The [while True] loop of [_read_until], entered at clock [now] with
    the lines read so far.  The deadline is looked at before each
    [readline], which then returns at the later of [now] and the moment
    its text arrives. *)
Fixpoint read_loop (sent0 : list string) (prefix : string) (timeout_ms start now : Z)
    (lines : list string) (reads : list Read)
  : outcome (list string * option string) :=
  if now - start >? timeout_ms then
    Returns (lines, None) {| sent := sent0; pending := reads; clock := now |}
  else
    match reads with
    | [] => Blocks
    | rd :: rest =>
        let now := Z.max now (at_ms rd) in
        let line := text rd in
        if negb (PyStr.truthy line) then
          Returns (lines, None) {| sent := sent0; pending := reads; clock := now |}
        else
          let line := PyStr.strip line in
          let lines := lines ++ [line] in
          if PyStr.startswith line prefix then
            Returns (lines, Some line) {| sent := sent0; pending := rest; clock := now |}
          else read_loop sent0 prefix timeout_ms start now lines rest
    end.

(** [_read_until(prefix, timeout_s)], with the timeout in milliseconds. *)
Definition _read_until (sf : Engine) (prefix : string) (timeout_ms : Z)
  : outcome (list string * option string) :=
  let start := clock sf in
  read_loop (sent sf) prefix timeout_ms start (clock sf) [] (pending sf).

(** [bestmove(fen, movetime_ms)].  [show] writes an integer in decimal.
    The relay is the only caller and runs one command at a time, so the
    lock of [with self.lock] is always free and is left out. *)
Definition bestmove (show : Z -> string) (sf : Engine) (fen : string)
    (movetime_ms : Z) : outcome string :=
  let sf := _send sf ("position fen " ++ fen)%string in
  let sf := _send sf ("go movetime " ++ show movetime_ms)%string in
  match _read_until sf "bestmove" 20000 with
  | Blocks => Blocks
  | Returns (_, line) sf =>
      match line with
      | None => Returns "0000" sf
      | Some line =>
          if negb (PyStr.truthy line) then Returns "0000" sf
          else
            let parts := PyStr.split line in
            Returns (if PyStr.len parts >=? 2 then nth 1 parts "" else "0000") sf
      end
  end.

(** The wrapper's state: [current_fen] and [current_moves_uci]. *)
Record Session : Type :=
  { current_fen : string; current_moves_uci : list string }.

Definition initial_session : Session :=
  {| current_fen := "startpos"; current_moves_uci := [] |}.

(** [fen_from_position_cmd(cmd)]. *)
Definition fen_from_position_cmd (cmd : string) (st : Session) : Session :=
  let parts := PyStr.split cmd in
  if PyStr.len parts <? 2 then st
  else if String.eqb (nth 1 parts "") "startpos" then
    {| current_fen := "startpos";
       current_moves_uci :=
         match PyStr.index parts "moves" with
         | Some idx => skipn (idx + 1) parts
         | None => []
         end |}
  else if String.eqb (nth 1 parts "") "fen" then
    match PyStr.index parts "moves" with
    | Some idx_moves =>
        {| current_fen := PyStr.join " " (skipn 2 (firstn idx_moves parts));
           current_moves_uci := skipn (idx_moves + 1) parts |}
    | None =>
        {| current_fen := PyStr.join " " (skipn 2 parts);
           current_moves_uci := [] |}
    end
  else st.

Definition ply_from_moves (moves : list string) : Z := PyStr.len moves.

(** What the exchange with the move service comes to: [requests.post]
    raises (no connection, or no answer within 1.5 s),
    [raise_for_status] raises, [r.json()] raises, or a body arrives.  A
    body is taken to have the fields of the service's [MoveResponse]. *)
Inductive Exchange : Type :=
| PostRaises
| StatusRaises
| JsonRaises
| Body (data : MoveService.MoveResponse).

(** [request_book_move(fen, ply)]; [post] stands for the network. *)
Definition request_book_move (post : string -> Z -> Exchange) (fen : string) (ply : Z)
  : option string * string * Q :=
  match post fen ply with
  | Body data =>
      (MoveService.move data, MoveService.source data, MoveService.confidence data)
  | PostRaises | StatusRaises | JsonRaises => (None, "move_service_error", 0%Q)
  end.

(** The loop [while time.time() - start < 2.0] of [main] that looks for
    the line starting with ["Fen:"]; it yields [fen_line]. *)
Fixpoint read_fen_line (sent0 : list string) (start now : Z) (reads : list Read)
  : outcome string :=
  if now - start <? 2000 then
    match reads with
    | [] => Blocks
    | rd :: rest =>
        let now := Z.max now (at_ms rd) in
        let out := text rd in
        if negb (PyStr.truthy out) then
          Returns "" {| sent := sent0; pending := reads; clock := now |}
        else
          let out := PyStr.strip out in
          if PyStr.startswith out "Fen:" then
            Returns out {| sent := sent0; pending := rest; clock := now |}
          else read_fen_line sent0 start now rest
    end
  else Returns "" {| sent := sent0; pending := reads; clock := now |}.

(** The first part of the [go] branch of [main]: the position text to
    use, [fen_to_use]. *)
Definition fen_to_use (st : Session) (sf : Engine) : outcome string :=
  if String.eqb (current_fen st) "startpos" then
    let sf :=
      _send sf ("position startpos" ++
                (if MoveService.is_empty (current_moves_uci st) then ""
                 else " moves " ++ PyStr.join " " (current_moves_uci st)))%string in
    let sf := _send sf "d" in
    match read_fen_line (sent sf) (clock sf) (clock sf) (pending sf) with
    | Blocks => Blocks
    | Returns fen_line sf =>
        Returns (if PyStr.truthy fen_line
                 then PyStr.strip (PyStr.remove fen_line "Fen:")
                 else "") sf
    end
  else Returns (current_fen st) sf.

Definition log (msg : string) : string := ("info string " ++ msg)%string.

Definition option_truthy (move : option string) : bool :=
  match move with
  | Some m => PyStr.truthy m
  | None => false
  end.

Definition option_text (move : option string) : string :=
  match move with
  | Some m => m
  | None => "None"
  end.

(** The [go] branch of [main]: the texts printed, one per [print].
    [show] writes an integer in decimal and [show3] a float with three
    decimals. *)
Definition go (show : Z -> string) (show3 : Q -> string)
    (post : string -> Z -> Exchange) (st : Session) (sf : Engine)
  : outcome (list string) :=
  match fen_to_use st sf with
  | Blocks => Blocks
  | Returns fen_to_use sf =>
      let ply := ply_from_moves (current_moves_uci st) in
      let '(move, source, conf) := request_book_move post fen_to_use ply in
      if option_truthy move then
        Returns [log ("book " ++ option_text move ++ " conf=" ++ show3 conf);
                 "bestmove " ++ option_text move]%string sf
      else
        match bestmove show sf fen_to_use DEFAULT_MOVETIME_MS with
        | Blocks => Blocks
        | Returns bm sf =>
            Returns [log ("sf " ++ bm); "bestmove " ++ bm]%string sf
        end
  end.

(** [StockfishUCI.quit]. *)
Definition quit (sf : Engine) : Engine := _send sf "quit".

(** The [while True] loop of [main] over the lines the host writes; a
    read that finds the host's stream closed ends the loop, like the
    empty text.  The result is everything printed. *)
Fixpoint main_loop (show : Z -> string) (show3 : Q -> string)
    (post : string -> Z -> Exchange) (stdin : list string)
    (st : Session) (sf : Engine) : outcome (list string) :=
  match stdin with
  | [] => Returns [] (quit sf)
  | line :: rest =>
      if negb (PyStr.truthy line) then Returns [] (quit sf)
      else
        let line := PyStr.strip line in
        if String.eqb line "uci" then
          match main_loop show show3 post rest st sf with
          | Blocks => Blocks
          | Returns out sf =>
              Returns ("id name capo298bot-uci" :: "id author you" :: "uciok" :: out) sf
          end
        else if String.eqb line "isready" then
          match main_loop show show3 post rest st sf with
          | Blocks => Blocks
          | Returns out sf => Returns ("readyok" :: out) sf
          end
        else if PyStr.startswith line "position " then
          main_loop show show3 post rest (fen_from_position_cmd line st) sf
        else if PyStr.startswith line "go" then
          match go show show3 post st sf with
          | Blocks => Blocks
          | Returns printed sf =>
              match main_loop show show3 post rest st sf with
              | Blocks => Blocks
              | Returns out sf => Returns (printed ++ out) sf
              end
          end
        else if String.eqb line "quit" then Returns [] (quit sf)
        else main_loop show show3 post rest st sf
  end.



End UciWrapper.

(* ================================================================== *)
(** * Vocabulary of the properties *)
(* ================================================================== *)

(** Runs of characters: without whitespace, all whitespace, and the
    non-empty runs without whitespace that [split] returns. *)
Definition solid (w : list ascii) : Prop := Forall (fun c => PyStr.isspace c = false) w.
Definition blank (t : list ascii) : Prop := Forall (fun c => PyStr.isspace c = true) t.
Definition word (w : list ascii) : Prop := w <> [] /\ solid w.

(** [a] may stand directly before [b] in count-descending order. *)
Definition count_ge (a b : string * Z) : Prop := snd b <= snd a.

Definition descending (l : list (string * Z)) : Prop := Sorted count_ge l.

Definition has_count (c : Z) (kc : string * Z) : bool := snd kc =? c.

Definition nonneg (items : list (string * Z)) : Prop :=
  Forall (fun kc => 0 <= snd kc) items.

(** The integers [s+1, ..., s+n]. *)
Fixpoint range_from (s : Z) (n : nat) : list Z :=
  match n with
  | O => []
  | S n' => (s + 1) :: range_from (s + 1) n'
  end.

(** Every value [random.randint(1, total)] can return, once each. *)
Definition draws (total : Z) : list Z := range_from 0 (Z.to_nat total).

Definition selects (moves : dict Z) (uci : string) (r : Z) : bool :=
  match MoveService.weighted_choice moves r with
  | Ok v => String.eqb v uci
  | Raise _ => false
  end.

Definition walk_selects (items : list (string * Z)) (s : Z) (uci : string) (r : Z) : bool :=
  match MoveService.walk items r s with
  | Some v => String.eqb v uci
  | None => false
  end.

(** The recorded count of [uci]: the sum over the pairs carrying it. *)
Definition count_of (uci : string) (items : list (string * Z)) : Z :=
  MoveService.sum_counts (filter (fun kc => String.eqb (fst kc) uci) items).

(** The BookEntry invariant of the design document, with the sharper
    equation the builders establish. *)
Definition entry_ok (total : Z) (moves : dict Z) : Prop :=
  moves <> [] /\
  total = MoveService.sum_counts moves /\
  (forall c, In c (values moves) -> 1 <= c <= total) /\
  MoveService.max_values (values moves) <= total.

(** The two counters agree: keys of [move_counts] are distinct, every
    inner mapping is non-empty with counts of at least one, its sum is
    the total recorded for the key, and no other key has a total. *)
Definition counters_ok (st : Counters) : Prop :=
  NoDup (keys (move_counts st)) /\
  (forall k, ~ In k (keys (move_counts st)) -> dict_get (total_positions st) k = None) /\
  (forall k m, In (k, m) (move_counts st) ->
     m <> [] /\ Forall (fun kc => 1 <= snd kc) m /\
     dict_get (total_positions st) k = Some (MoveService.sum_counts m)).


(** A line that is there and does not start with [prefix]. *)
Definition plain_line (prefix : string) (rd : UciWrapper.Read) : Prop :=
  PyStr.truthy (UciWrapper.text rd) = true /\
  PyStr.startswith (PyStr.strip (UciWrapper.text rd)) prefix = false.


(** The texts among those printed that announce a best move. *)
Definition bestmove_lines (out : list string) : list string :=
  filter (fun l => PyStr.startswith l "bestmove ") out.

(** The move the decision boundary hands to the relay: the [move] of a
    body that arrived, when it is a non-empty text.  Every failure of the
    exchange and every body without such a move gives [None]. *)
Definition accepted_move (x : UciWrapper.Exchange) : option string :=
  match x with
  | UciWrapper.Body data =>
      match MoveService.move data with
      | Some m => if PyStr.truthy m then Some m else None
      | None => None
      end
  | _ => None
  end.

(** The keys of an artifact a builder returned, and of its ["meta"]. *)
Definition artifact_keys (r : result json) : list string :=
  match r with
  | Ok book => json_keys book
  | Raise _ => []
  end.

Definition artifact_meta_keys (r : result json) : list string :=
  match r with
  | Ok book =>
      match json_get book "meta" with
      | Some meta => json_keys meta
      | None => []
      end
  | Raise _ => []
  end.

(** The keys of every entry under ["positions"]. *)
Definition artifact_entry_keys (r : result json) : list (list string) :=
  match r with
  | Ok book =>
      match json_get book "positions" with
      | Some (JObj entries) => map (fun e => json_keys (snd e)) entries
      | _ => []
      end
  | Raise _ => []
  end.

(** [d.get(k, {}).get(u, 0)] and [d.get(k, 0)]: the count a builder holds
    for move [u] at key [k], and the total it holds for key [k]. *)
Definition count_at (d : dict (dict Z)) (k u : string) : Z :=
  match dict_get d k with
  | Some m => match dict_get m u with Some c => c | None => 0 end
  | None => 0
  end.

Definition total_at (d : dict Z) (k : string) : Z :=
  match dict_get d k with Some n => n | None => 0 end.

(** A half-move made from the position with key [k], and one that in
    addition is the move [u]. *)
Definition from_key (k : string) (hm : HalfMove) : bool :=
  String.eqb (MoveService.normalize_fen (hm_fen hm)) k.

Definition plays (k u : string) (hm : HalfMove) : bool :=
  from_key k hm && String.eqb (hm_uci hm) u.

(** A game record a builder passes over: blank text, or no game read. *)
Definition unreadable (g : GameRecord) : bool :=
  negb (PyStr.truthy (PyStr.strip (pgn g))) ||
  match pgn_to_game g with Some _ => false | None => true end.

(** The half-moves of a record below the ply cap. *)
Definition opening_of (max_ply_cap : Z) (g : GameRecord) : list HalfMove :=
  if unreadable g then []
  else
    match pgn_to_game g with
    | Some game => firstn (Z.to_nat max_ply_cap) (mainline_moves game)
    | None => []
    end.

(** The side to move is the player's. *)
Definition on_move (player_is_white : bool) (hm : HalfMove) : bool :=
  Bool.eqb (hm_white_to_move hm) player_is_white.

(** The player has the white or the black pieces in a game that was read. *)
Definition plays_in (player : string) (g : GameRecord) : bool :=
  negb (unreadable g) &&
  match pgn_to_game g with
  | Some game =>
      String.eqb (headers_White game) player || String.eqb (headers_Black game) player
  | None => false
  end.

(** The half-moves of a record below the ply cap in which the player is
    to move; in a game where both names are the player's, the white ones. *)
Definition player_opening_of (player : string) (max_ply_cap : Z) (g : GameRecord)
  : list HalfMove :=
  if plays_in player g then
    match pgn_to_game g with
    | Some game =>
        filter (on_move (String.eqb (headers_White game) player))
          (firstn (Z.to_nat max_ply_cap) (mainline_moves game))
    | None => []
    end
  else [].

Definition occurrences (p : HalfMove -> bool) (hms : list HalfMove) : Z :=
  Z.of_nat (List.length (filter p hms)).

(** Counting one half-move, as both replay loops do it. *)
Definition count_half_move (st : Counters) (hm : HalfMove) : Counters :=
  count_move st (MoveService.normalize_fen (hm_fen hm)) (hm_uci hm).

(** Every inner mapping of [move_counts] has distinct keys, and every
    key of [move_counts] is a canonical position key. *)
Definition mappings_ok (st : Counters) : Prop :=
  (forall k m, In (k, m) (move_counts st) -> NoDup (keys m)) /\
  (forall k, In k (keys (move_counts st)) -> MoveService.normalize_fen k = k).

(** A text that is one field: not empty and without whitespace. *)
Definition field (s : string) : Prop := word (list_ascii_of_string s).

(** The texts the relay's protocol allows it to print. *)
Definition protocol_line (l : string) : Prop :=
  In l ["id name capo298bot-uci"; "id author you"; "uciok"; "readyok"] \/
  PyStr.startswith l "info string " = true \/
  PyStr.startswith l "bestmove " = true.

(** The move service behind the relay's [requests.post]: the request
    carries the position text and the ply, [draw] is the draw the service
    makes for it; a response is the body, an exception inside [get_move]
    is answered with status 500, on which [raise_for_status] raises. *)
Definition service_exchange (chess_Board : string -> option MoveService.Board)
    (positions : dict MoveService.Entry) (meta : MoveService.Meta)
    (draw : Z) (fen : string) (ply : Z) : UciWrapper.Exchange :=
  match MoveService.get_move chess_Board positions meta
          {| MoveService.fen := fen; MoveService.ply := ply;
             MoveService.mode := "capo298bot" |} draw with
  | Ok resp => UciWrapper.Body resp
  | Raise _ => UciWrapper.StatusRaises
  end.


(** Sample data for the worked examples. *)
Module Sample.
Import MoveService.

Definition start_board : Board :=
  {| board_fen := "rnbqkbnr/pppppppp/8/8/8/8/PPPPPPPP/RNBQKBNR w KQkq - 0 1";
     legal_moves := ["e2e4"; "d2d4"; "g1f3"] |}.

Definition start_key : string :=
  "rnbqkbnr/pppppppp/8/8/8/8/PPPPPPPP/RNBQKBNR w KQkq -".

(** A constructor that accepts one text and raises on every other. *)
Definition only_start (fen : string) : option Board :=
  if String.eqb fen "startpos-fen" then Some start_board else None.

Definition book (moves : dict Z) (total : Z) : dict Entry :=
  [(start_key, {| e_total := Some total; e_moves := Some moves |})].

Definition no_meta : Meta :=
  {| m_min_position_count := None; m_min_top_move_ratio := None;
     m_max_ply_cap := None |}.

Definition req (p : Z) : MoveRequest :=
  {| fen := "startpos-fen"; ply := p; mode := "capo298bot" |}.

(** One game of the export: capo298 opens 1. e4, the rival answers e5. *)
Definition game_e4_e5 : GameRecord :=
  {| pgn := "1. e4 e5 *";
     pgn_to_game :=
       Some {| headers_White := "capo298"; headers_Black := "rival";
               mainline_moves :=
                 [ {| hm_fen := "rnbqkbnr/pppppppp/8/8/8/8/PPPPPPPP/RNBQKBNR w KQkq - 0 1";
                      hm_white_to_move := true; hm_uci := "e2e4" |};
                   {| hm_fen := "rnbqkbnr/pppppppp/8/8/4P3/8/PPPP1PPP/RNBQKBNR b KQkq - 0 1";
                      hm_white_to_move := false; hm_uci := "e7e5" |} ] |} |}.

Definition show_250 (z : Z) : string := "250".
Definition show_0 (q : Q) : string := "0.000".

(** A session whose origin is an explicit position text. *)
Definition explicit_session : UciWrapper.Session :=
  {| UciWrapper.current_fen := "8/8/8/4k3/8/8/4K3/4R3 w - - 0 1";
     UciWrapper.current_moves_uci := [] |}.

(** An engine that has written nothing and keeps its stdout open. *)
Definition silent_engine : UciWrapper.Engine :=
  {| UciWrapper.sent := []; UciWrapper.pending := []; UciWrapper.clock := 0 |}.

(** An engine whose only line arrives 25 seconds after the clock's 0. *)
Definition late_engine : UciWrapper.Engine :=
  {| UciWrapper.sent := [];
     UciWrapper.pending :=
       [ {| UciWrapper.at_ms := 25000; UciWrapper.text := "bestmove e2e4 ponder e7e5" |} ];
     UciWrapper.clock := 0 |}.

(** An engine that answers within 200 ms. *)
Definition prompt_engine : UciWrapper.Engine :=
  {| UciWrapper.sent := [];
     UciWrapper.pending :=
       [ {| UciWrapper.at_ms := 40; UciWrapper.text := "info depth 1 score cp 20" |};
         {| UciWrapper.at_ms := 200; UciWrapper.text := "bestmove e1e2 ponder e5d5" |} ];
     UciWrapper.clock := 0 |}.

Definition unreachable (fen : string) (ply : Z) : UciWrapper.Exchange :=
  UciWrapper.PostRaises.

End Sample.

(* ================================================================== *)
(** * Properties *)
(* ================================================================== *)

Example normalize_startpos :
  MoveService.normalize_fen
    "rnbqkbnr/pppppppp/8/8/8/8/PPPPPPPP/RNBQKBNR w KQkq - 0 1"
  = "rnbqkbnr/pppppppp/8/8/8/8/PPPPPPPP/RNBQKBNR w KQkq -".
Proof. reflexivity. Qed.

Example normalize_short :
  MoveService.normalize_fen "  8/8  w " = "8/8  w".
Proof. reflexivity. Qed.

(* ------------------------------------------------------------------ *)
(** ** Words, [split], [strip] and [join] *)
(* ------------------------------------------------------------------ *)

Section StringLemmas.
Import PyStr.


Lemma split_words_cons_space c s :
  isspace c = true -> split_words (c :: s) = split_words s.
Proof.
  intros Hc. unfold split_words. simpl.
  destruct (scan s) as [w ws]. rewrite Hc. destruct (push w ws); reflexivity.
Qed.

Lemma scan_solid_app w s :
  solid w -> scan (w ++ s) = (w ++ fst (scan s), snd (scan s)).
Proof.
  induction 1 as [|c w Hc Hw IH]; simpl.
  - destruct (scan s); reflexivity.
  - rewrite IH, Hc. reflexivity.
Qed.

Lemma scan_blank t : blank t -> scan t = ([], []).
Proof.
  induction 1 as [|c t Hc Ht IH]; simpl; [reflexivity|].
  rewrite IH, Hc. reflexivity.
Qed.

Lemma scan_app_blank s t : blank t -> scan (s ++ t) = scan s.
Proof.
  intros Ht. induction s as [|c s IH]; simpl.
  - now apply scan_blank.
  - rewrite IH. reflexivity.
Qed.

Lemma split_words_word_sep w s :
  word w -> split_words (w ++ " "%char :: s) = w :: split_words s.
Proof.
  intros [Hne Hs]. unfold split_words at 1.
  rewrite (scan_solid_app w _ Hs).
  change (scan (" "%char :: s)) with
    (let (w0, ws0) := scan s in ([] : list ascii, push w0 ws0)).
  unfold split_words. destruct (scan s) as [w0 ws0]. simpl.
  rewrite app_nil_r. destruct w; [contradiction|reflexivity].
Qed.

Lemma split_words_word w : word w -> split_words w = [w].
Proof.
  intros [Hne Hs]. unfold split_words.
  rewrite <- (app_nil_r w) at 1. rewrite (scan_solid_app w [] Hs). simpl.
  rewrite app_nil_r. destruct w; [contradiction|reflexivity].
Qed.

(** Splitting what [" ".join] produced from words gives the words back. *)
Lemma split_words_join ps :
  Forall word ps -> split_words (join_chars [" "%char] ps) = ps.
Proof.
  induction 1 as [|p ps Hp Hps IH]; [reflexivity|].
  destruct ps as [|q ps].
  - simpl. now apply split_words_word.
  - change (join_chars [" "%char] (p :: q :: ps))
      with (p ++ " "%char :: join_chars [" "%char] (q :: ps)).
    rewrite split_words_word_sep by assumption. now rewrite IH.
Qed.

Lemma scan_shape s :
  solid (fst (scan s)) /\ Forall word (snd (scan s)).
Proof.
  induction s as [|c s [IHw IHws]]; simpl.
  - split; constructor.
  - destruct (scan s) as [w ws]. simpl in *.
    destruct (isspace c) eqn:Hc; simpl.
    + split; [constructor|].
      destruct w; simpl; [assumption|].
      constructor; [split; [discriminate|assumption]|assumption].
    + split; [constructor; assumption|assumption].
Qed.

(** Every element of [s.split()] is a non-empty run without whitespace. *)
Lemma split_words_words s : Forall word (split_words s).
Proof.
  unfold split_words. pose proof (scan_shape s) as [Hw Hws].
  destruct (scan s) as [w ws]. simpl in *.
  destruct w; simpl; [assumption|].
  constructor; [split; [discriminate|assumption]|assumption].
Qed.

Lemma lstrip_decomp s : exists t, blank t /\ s = t ++ lstrip s.
Proof.
  induction s as [|c s [t [Ht Hs]]]; simpl.
  - exists []. split; [constructor|reflexivity].
  - destruct (isspace c) eqn:Hc.
    + exists (c :: t). split; [constructor; assumption|]. simpl. now f_equal.
    + exists []. split; [constructor|reflexivity].
Qed.

Lemma split_words_lstrip s : split_words (lstrip s) = split_words s.
Proof.
  induction s as [|c s IH]; simpl; [reflexivity|].
  destruct (isspace c) eqn:Hc; [|reflexivity].
  now rewrite split_words_cons_space.
Qed.

Lemma blank_rev t : blank t -> blank (rev t).
Proof. intros H. apply Forall_rev. exact H. Qed.

Lemma split_words_rstrip s : split_words (rstrip s) = split_words s.
Proof.
  unfold rstrip. destruct (lstrip_decomp (rev s)) as [t [Ht Hs]].
  assert (E : s = rev (lstrip (rev s)) ++ rev t).
  { rewrite <- rev_app_distr, <- Hs, rev_involutive. reflexivity. }
  rewrite E at 2. unfold split_words.
  rewrite scan_app_blank by now apply blank_rev. reflexivity.
Qed.

Lemma split_words_strip s : split_words (strip_chars s) = split_words s.
Proof.
  unfold strip_chars. now rewrite split_words_rstrip, split_words_lstrip.
Qed.

Lemma lstrip_idem s : lstrip (lstrip s) = lstrip s.
Proof.
  induction s as [|c s IH]; simpl; [reflexivity|].
  destruct (isspace c) eqn:Hc; [assumption|]. simpl. now rewrite Hc.
Qed.

Lemma lstrip_snoc_solid s c :
  isspace c = false -> lstrip (s ++ [c]) = lstrip s ++ [c].
Proof.
  intros Hc. induction s as [|d s IH]; simpl.
  - now rewrite Hc.
  - destruct (isspace d); [assumption|reflexivity].
Qed.

Lemma rstrip_cons_solid c s :
  isspace c = false -> rstrip (c :: s) = c :: rstrip s.
Proof.
  intros Hc. unfold rstrip. simpl.
  rewrite lstrip_snoc_solid by assumption.
  now rewrite rev_app_distr.
Qed.

Lemma rstrip_idem s : rstrip (rstrip s) = rstrip s.
Proof. unfold rstrip. now rewrite rev_involutive, lstrip_idem. Qed.

Lemma lstrip_rstrip_lstrip s : lstrip (rstrip (lstrip s)) = rstrip (lstrip s).
Proof.
  induction s as [|c s IH]; simpl; [reflexivity|].
  destruct (isspace c) eqn:Hc; [assumption|].
  rewrite rstrip_cons_solid by assumption. simpl. now rewrite Hc.
Qed.

Lemma strip_chars_idem s : strip_chars (strip_chars s) = strip_chars s.
Proof.
  unfold strip_chars. now rewrite lstrip_rstrip_lstrip, rstrip_idem.
Qed.

End StringLemmas.

(* ------------------------------------------------------------------ *)
(** ** Position keys *)
(* ------------------------------------------------------------------ *)

Lemma map_chars_of_strings ws :
  map list_ascii_of_string (map string_of_list_ascii ws) = ws.
Proof.
  rewrite map_map. rewrite <- (map_id ws) at 2.
  apply map_ext. intros w. apply list_ascii_of_string_of_list_ascii.
Qed.

Lemma Forall_take {A} (P : A -> Prop) n (l : list A) :
  Forall P l -> Forall P (firstn n l).
Proof.
  intros H. revert n. induction H as [|x l Hx Hl IH]; intros [|n]; simpl;
    constructor; auto.
Qed.

Lemma normalize_fen_idempotent f :
  MoveService.normalize_fen (MoveService.normalize_fen f)
  = MoveService.normalize_fen f.
Proof.
  unfold MoveService.normalize_fen, PyStr.len, PyStr.split, PyStr.strip, PyStr.join.
  set (l := list_ascii_of_string f).
  set (ws := PyStr.split_words l).
  rewrite !length_map.
  destruct (Z.of_nat (List.length ws) <? 4) eqn:Hlen.
  - (* fewer than four fields: the stripped text is returned *)
    rewrite list_ascii_of_string_of_list_ascii, split_words_strip.
    fold ws. rewrite Hlen. now rewrite strip_chars_idem.
  - (* the first four fields, joined by single blanks *)
    apply Z.ltb_ge in Hlen.
    rewrite <- firstn_map, map_chars_of_strings.
    rewrite list_ascii_of_string_of_list_ascii.
    change (list_ascii_of_string " ") with [" "%char].
    assert (Hw : Forall word (firstn 4 ws)).
    { apply Forall_take. apply split_words_words. }
    rewrite (split_words_join _ Hw).
    rewrite length_firstn.
    replace (Nat.min 4 (List.length ws)) with 4%nat by lia.
    change (Z.of_nat 4 <? 4) with false. cbv iota.
    rewrite <- firstn_map, map_chars_of_strings.
    now rewrite firstn_firstn.
Qed.

(** C10: the position-key canonicalisation is the same function in the
    move service and in both book builders (equal results on every
    string), and it is idempotent; a key recorded by a builder is
    therefore the key the service looks up for the same board text. *)
Theorem normalize_fen_shared_idempotent :
  forall f : string,
    BookBuilder.normalize_fen f = MoveService.normalize_fen f /\
    BookBuilderTurnOnly.normalize_fen f = MoveService.normalize_fen f /\
    MoveService.normalize_fen (MoveService.normalize_fen f)
      = MoveService.normalize_fen f /\
    MoveService.normalize_fen (BookBuilder.normalize_fen f)
      = BookBuilder.normalize_fen f /\
    MoveService.normalize_fen (BookBuilderTurnOnly.normalize_fen f)
      = BookBuilderTurnOnly.normalize_fen f.
Proof.
  intros f.
  assert (E1 : BookBuilder.normalize_fen f = MoveService.normalize_fen f)
    by reflexivity.
  assert (E2 : BookBuilderTurnOnly.normalize_fen f = MoveService.normalize_fen f)
    by reflexivity.
  rewrite E1, E2. repeat split; apply normalize_fen_idempotent.
Qed.

(* ------------------------------------------------------------------ *)
(** ** The move selector: worked examples *)
(* ------------------------------------------------------------------ *)


Module SelectorExamples.
Import MoveService Sample.

Example single_move :
  get_move only_start (book [("e2e4", 8)] 8) no_meta (req 0) 3
  = Ok {| move := Some "e2e4"; source := "opening_book";
          confidence := (inject_Z 8 / inject_Z 8)%Q |}.
Proof. reflexivity. Qed.

Example below_count :
  source_of (get_move only_start (book [("e2e4", 5)] 5) no_meta (req 0) 1)
  = Some "below_min_count".
Proof. reflexivity. Qed.

Example low_ratio :
  source_of (get_move only_start (book [("e2e4", 5); ("d2d4", 5)] 10) no_meta (req 0) 1)
  = Some "low_confidence".
Proof. reflexivity. Qed.

Example capped :
  source_of (get_move only_start (book [("e2e4", 9)] 9) no_meta (req 20) 1)
  = Some "ply_cap".
Proof. reflexivity. Qed.

Example illegal_draw_rescans :
  get_move only_start (book [("a2a3", 9); ("h2h3", 7); ("d2d4", 3); ("e2e4", 3)] 22)
    {| m_min_position_count := None; m_min_top_move_ratio := Some (1 # 4);
       m_max_ply_cap := None |} (req 0) 1
  = Ok {| move := Some "d2d4"; source := "opening_book";
          confidence := (inject_Z 9 / inject_Z 22)%Q |}.
Proof. reflexivity. Qed.

Example draws_9_1 :
  map (weighted_choice [("a", 9); ("b", 1)]) [1; 2; 3; 4; 5; 6; 7; 8; 9; 10]
  = [Ok "a"; Ok "a"; Ok "a"; Ok "a"; Ok "a"; Ok "a"; Ok "a"; Ok "a"; Ok "a"; Ok "b"].
Proof. reflexivity. Qed.

End SelectorExamples.

(* ------------------------------------------------------------------ *)
(** ** The move selector: the gating chain *)
(* ------------------------------------------------------------------ *)

Section Gating.
Import MoveService.

Variable chess_Board : string -> option Board.
Variable positions : dict Entry.
Variable meta : Meta.

Lemma fold_max_ge vs : forall v, v <= fold_left Z.max vs v.
Proof.
  induction vs as [|w vs IH]; intros v; simpl; [lia|].
  specialize (IH (Z.max v w)). lia.
Qed.

Lemma fold_max_bound vs :
  forall v x, In x vs -> x <= fold_left Z.max vs v.
Proof.
  induction vs as [|w vs IH]; intros v x Hin; simpl; [destruct Hin|].
  destruct Hin as [->|Hin]; [|now apply IH].
  pose proof (fold_max_ge vs (Z.max v x)). lia.
Qed.

Lemma fold_max_in vs :
  forall v, fold_left Z.max vs v = v \/ In (fold_left Z.max vs v) vs.
Proof.
  induction vs as [|w vs IH]; intros v; simpl; [now left|].
  destruct (IH (Z.max v w)) as [E|Hin]; [|now right; right].
  rewrite E. destruct (Z.max_spec v w) as [[_ ->]|[_ ->]]; [right|]; auto.
Qed.

(** [max_values] is the greatest element of a non-empty list. *)
Lemma max_values_greatest vs :
  vs <> [] ->
  In (max_values vs) vs /\ forall x, In x vs -> x <= max_values vs.
Proof.
  destruct vs as [|v vs]; [congruence|]. intros _. simpl. split.
  - destruct (fold_max_in vs v) as [->|H]; auto.
  - intros x [<-|Hin]; [apply fold_max_ge|now apply fold_max_bound].
Qed.

Lemma Qltb_lt x y : Qltb x y = true <-> (x < y)%Q.
Proof.
  unfold Qltb. rewrite Qlt_alt. destruct (x ?= y)%Q; split; congruence.
Qed.

(** The state of [get_move] once the position has parsed and its entry
    has passed the hit and emptiness checks. *)
Lemma get_move_past_entry_checks req r board entry total moves :
  chess_Board (fen req) = Some board ->
  dict_get positions (normalize_fen (board_fen board)) = Some entry ->
  e_total entry = Some total -> 0 < total ->
  e_moves entry = Some moves -> moves <> [] ->
  get_move chess_Board positions meta req r =
    let min_position_count := get_default (m_min_position_count meta) 8 in
    let min_top_move_ratio := get_default (m_min_top_move_ratio meta) (55 # 100) in
    let max_ply_cap := get_default (m_max_ply_cap meta) 20 in
    if ply req >=? max_ply_cap then reject "ply_cap" 0
    else
      let top_ratio := (inject_Z (max_values (values moves)) / inject_Z total)%Q in
      if total <? min_position_count then reject "below_min_count" top_ratio
      else if Qltb top_ratio min_top_move_ratio then reject "low_confidence" top_ratio
      else
        match weighted_choice moves r with
        | Raise e => Raise e
        | Ok chosen =>
            if negb (mem chosen (legal_moves board)) then
              match find (fun kv => mem (fst kv) (legal_moves board)) (sorted_desc moves) with
              | Some (uci, _) =>
                  Ok {| move := Some uci; source := "opening_book";
                        confidence := top_ratio |}
              | None => reject "no_legal_book_move" top_ratio
              end
            else Ok {| move := Some chosen; source := "opening_book";
                       confidence := top_ratio |}
        end.
Proof.
  intros Hb He Ht Hpos Hm Hne. unfold get_move.
  rewrite Hb, He. unfold entry_falsy. rewrite Ht, Hm. cbn [get_default].
  destruct moves as [|m ms]; [congruence|]. cbn [is_empty orb].
  destruct (total <=? 0) eqn:E; [apply Z.leb_le in E; lia|]. reflexivity.
Qed.

(** C9: a request whose position text the chess library refuses to
    parse is answered normally, with no move, reason [invalid_fen] and
    confidence 0.0; nothing is raised. *)
Theorem invalid_fen_is_rejected req r :
  chess_Board (fen req) = None ->
  get_move chess_Board positions meta req r
  = Ok {| move := None; source := "invalid_fen"; confidence := 0 |}.
Proof. intros H. unfold get_move. rewrite H. reflexivity. Qed.


(** C2 (as amended): a request at or beyond the ply cap never gets a
    move and always carries confidence 0.0; the reason is [ply_cap]
    whenever the position parses and has an entry with non-empty moves
    and positive total, whatever the counts, thresholds, legal moves and
    draw.  The parse, hit and emptiness checks come first and answer
    with their own reasons. *)
Theorem ply_cap_rejects_after_entry_checks req r :
  get_default (m_max_ply_cap meta) 20 <= ply req ->
  (exists reason,
      get_move chess_Board positions meta req r = reject reason 0 /\
      In reason ["invalid_fen"; "no_book_hit"; "empty_entry"; "ply_cap"]) /\
  (forall board entry total moves,
      chess_Board (fen req) = Some board ->
      dict_get positions (normalize_fen (board_fen board)) = Some entry ->
      e_total entry = Some total -> 0 < total ->
      e_moves entry = Some moves -> moves <> [] ->
      get_move chess_Board positions meta req r
      = Ok {| move := None; source := "ply_cap"; confidence := 0 |}).
Proof.
  intros Hcap.
  assert (Ecap : (ply req >=? get_default (m_max_ply_cap meta) 20) = true)
    by (apply Z.geb_le; lia).
  split.
  - unfold get_move.
    destruct (chess_Board (fen req)) as [board|];
      [|exists "invalid_fen"; simpl; auto].
    destruct (dict_get positions (normalize_fen (board_fen board))) as [entry|];
      [|exists "no_book_hit"; simpl; auto].
    destruct (entry_falsy entry); [exists "no_book_hit"; simpl; auto|].
    destruct (is_empty (get_default (e_moves entry) []) ||
              (get_default (e_total entry) 0 <=? 0));
      [exists "empty_entry"; simpl; auto 6|].
    rewrite Ecap. exists "ply_cap". simpl; auto 6.
  - intros board entry total moves Hb He Ht Hpos Hm Hne.
    rewrite (get_move_past_entry_checks req r board entry total moves) by assumption.
    cbv zeta. rewrite Ecap. reflexivity.
Qed.

End Gating.

(** C2, as the design document states it, fails: with the cap reached
    and no entry for the position the reason is [no_book_hit]. *)
Lemma ply_cap_is_not_checked_first :
  MoveService.get_move Sample.only_start [] Sample.no_meta (Sample.req 20) 1
  = MoveService.reject "no_book_hit" 0
  /\ MoveService.get_move Sample.only_start [] Sample.no_meta (Sample.req 20) 1
     <> MoveService.reject "ply_cap" 0
  /\ MoveService.get_move Sample.only_start (Sample.book [] 0) Sample.no_meta
       (Sample.req 20) 1
     = MoveService.reject "empty_entry" 0
  /\ MoveService.get_move Sample.only_start (Sample.book [] 0) Sample.no_meta
       (Sample.req 20) 1
     <> MoveService.reject "ply_cap" 0.
Proof. repeat split; discriminate. Qed.

(* ------------------------------------------------------------------ *)
(** ** The order of the fallback rescan *)
(* ------------------------------------------------------------------ *)

Section RescanOrder.
Import MoveService.


Lemma insert_desc_perm x l : Permutation (insert_desc x l) (x :: l).
Proof.
  induction l as [|y l IH]; simpl; [reflexivity|].
  destruct (snd x <? snd y); [|reflexivity].
  rewrite IH. apply perm_swap.
Qed.

Lemma sorted_desc_perm l : Permutation (sorted_desc l) l.
Proof.
  induction l as [|x l IH]; simpl; [reflexivity|].
  rewrite insert_desc_perm. now constructor.
Qed.

Lemma insert_desc_hd x y l :
  count_ge y x -> HdRel count_ge y l -> HdRel count_ge y (insert_desc x l).
Proof.
  intros Hyx Hl. destruct l as [|z l]; simpl; [now constructor|].
  inversion_clear Hl. destruct (snd x <? snd z); now constructor.
Qed.

Lemma insert_desc_descending x l :
  descending l -> descending (insert_desc x l).
Proof.
  unfold descending. induction 1 as [|y l Hl IH Hhd]; simpl.
  - repeat constructor.
  - destruct (snd x <? snd y) eqn:E.
    + apply Z.ltb_lt in E. constructor; [assumption|].
      apply insert_desc_hd; [unfold count_ge; lia|assumption].
    + apply Z.ltb_ge in E. constructor; [now constructor|].
      constructor. exact E.
Qed.

Lemma sorted_desc_descending l : descending (sorted_desc l).
Proof.
  induction l as [|x l IH]; simpl; [constructor|].
  now apply insert_desc_descending.
Qed.

Lemma insert_desc_filter c x l :
  filter (has_count c) (insert_desc x l) = filter (has_count c) (x :: l).
Proof.
  induction l as [|y l IH]; [reflexivity|].
  cbn [insert_desc]. destruct (snd x <? snd y) eqn:E; [|reflexivity].
  apply Z.ltb_lt in E. cbn [filter] in *. rewrite IH. unfold has_count.
  destruct (snd x =? c) eqn:Ex; [|reflexivity].
  apply Z.eqb_eq in Ex.
  destruct (snd y =? c) eqn:Ey; [apply Z.eqb_eq in Ey; lia|reflexivity].
Qed.

(** Stability: moves of equal count keep their order in the mapping. *)
Lemma sorted_desc_stable c l :
  filter (has_count c) (sorted_desc l) = filter (has_count c) l.
Proof.
  induction l as [|x l IH]; [reflexivity|].
  cbn [sorted_desc fold_right]. fold (sorted_desc l).
  rewrite insert_desc_filter. cbn [filter]. now rewrite IH.
Qed.

Lemma descending_fixed l : descending l -> sorted_desc l = l.
Proof.
  unfold descending. induction 1 as [|x l Hl IH Hhd]; [reflexivity|].
  cbn [sorted_desc fold_right]. fold (sorted_desc l). rewrite IH.
  destruct Hhd as [|y l Hxy]; [reflexivity|].
  cbn [insert_desc]. unfold count_ge in Hxy.
  destruct (snd x <? snd y) eqn:E; [apply Z.ltb_lt in E; lia|reflexivity].
Qed.

(** The rescan order is the order of the mapping exactly when the
    mapping is already stored by descending count. *)
Lemma sorted_desc_fixed_iff l : sorted_desc l = items l <-> descending l.
Proof.
  unfold items. split.
  - intros E. rewrite <- E. apply sorted_desc_descending.
  - apply descending_fixed.
Qed.

End RescanOrder.

(* ------------------------------------------------------------------ *)
(** ** The weighted draw *)
(* ------------------------------------------------------------------ *)

Section WeightedDraw.
Import MoveService.


Lemma sum_counts_app l1 l2 :
  sum_counts (l1 ++ l2) = sum_counts l1 + sum_counts l2.
Proof. induction l1 as [|[k c] l1 IH]; simpl in *; lia. Qed.

Lemma sum_counts_nonneg l : nonneg l -> 0 <= sum_counts l.
Proof. induction 1 as [|[k c] l Hc Hl IH]; simpl in *; lia. Qed.

Lemma count_of_nonneg u l : nonneg l -> 0 <= count_of u l.
Proof.
  intros H. apply sum_counts_nonneg. unfold nonneg in *.
  rewrite Forall_forall in *. intros x Hx. apply filter_In in Hx. now apply H.
Qed.

Lemma range_from_app s a b :
  range_from s (a + b) = range_from s a ++ range_from (s + Z.of_nat a) b.
Proof.
  revert s. induction a as [|a IH]; intros s.
  - simpl. now rewrite Z.add_0_r.
  - cbn [Nat.add range_from app]. rewrite IH. do 3 f_equal. lia.
Qed.

Lemma range_from_In s n r :
  In r (range_from s n) <-> s < r <= s + Z.of_nat n.
Proof.
  revert s. induction n as [|n IH]; intros s.
  - simpl. lia.
  - cbn [range_from In]. rewrite IH. lia.
Qed.

Lemma length_range_from s n : List.length (range_from s n) = n.
Proof. revert s. induction n as [|n IH]; intros s; simpl; auto. Qed.

Lemma filter_all {A} (f : A -> bool) l :
  (forall x, In x l -> f x = true) -> filter f l = l.
Proof.
  induction l as [|x l IH]; intros H; simpl; [reflexivity|].
  rewrite (H x) by now left. f_equal. apply IH. intros y Hy. apply H. now right.
Qed.

Lemma filter_none {A} (f : A -> bool) l :
  (forall x, In x l -> f x = false) -> filter f l = [].
Proof.
  induction l as [|x l IH]; intros H; simpl; [reflexivity|].
  rewrite (H x) by now left. apply IH. intros y Hy. apply H. now right.
Qed.

(** The loop never falls through when the draw is within the sum. *)
Lemma walk_finds items : forall r s,
  s < r -> r <= s + sum_counts items -> walk items r s <> None.
Proof.
  induction items as [|[k c] rest IH]; intros r s Hlo Hhi; simpl in *; [lia|].
  destruct (r <=? s + c) eqn:E; [discriminate|].
  apply Z.leb_gt in E. apply IH; lia.
Qed.

(** What the loop returns is the first pair, in the order of [items],
    whose running sum reaches the draw. *)
Lemma walk_first items : forall r s uci,
  walk items r s = Some uci ->
  exists pre c post,
    items = pre ++ (uci, c) :: post /\
    r <= s + sum_counts pre + c /\
    forall pre1 x post1,
      pre = pre1 ++ x :: post1 -> s + sum_counts pre1 + snd x < r.
Proof.
  induction items as [|[k c] rest IH]; intros r s uci H; simpl in H; [discriminate|].
  destruct (r <=? s + c) eqn:E.
  - injection H as <-. apply Z.leb_le in E.
    exists [], c, rest. simpl. repeat split; [lia|].
    intros [|? ?] ? ? Habs; discriminate.
  - apply Z.leb_gt in E.
    destruct (IH _ _ _ H) as (pre & c' & post & -> & Hle & Hbefore).
    exists ((k, c) :: pre), c', post. simpl. repeat split; [lia|].
    intros [|y pre1] x post1 Heq; simpl in Heq; injection Heq as Hx Hp; subst.
    + simpl. lia.
    + specialize (Hbefore pre1 x post1 eq_refl). simpl. lia.
Qed.

(** Of the draws [s+1 .. s+sum], exactly [count_of uci] end on [uci]. *)
Lemma walk_hits uci items : forall s,
  nonneg items ->
  List.length (filter (walk_selects items s uci)
                 (range_from s (Z.to_nat (sum_counts items))))
  = Z.to_nat (count_of uci items).
Proof.
  induction items as [|[k c] rest IH]; intros s Hnn; [reflexivity|].
  inversion_clear Hnn as [|? ? Hc Hrest]. simpl in Hc.
  pose proof (sum_counts_nonneg _ Hrest) as Hsum.
  pose proof (count_of_nonneg uci _ Hrest) as Hcnt.
  cbn [sum_counts fold_right snd]. fold (sum_counts rest).
  rewrite Z2Nat.inj_add by lia.
  rewrite range_from_app, filter_app, length_app, Z2Nat.id by lia.
  assert (Hsnd : filter (walk_selects ((k, c) :: rest) s uci)
                   (range_from (s + c) (Z.to_nat (sum_counts rest)))
                 = filter (walk_selects rest (s + c) uci)
                     (range_from (s + c) (Z.to_nat (sum_counts rest)))).
  { apply filter_ext_in. intros r Hr. apply range_from_In in Hr.
    unfold walk_selects. simpl.
    destruct (r <=? s + c) eqn:E; [apply Z.leb_le in E; lia|reflexivity]. }
  rewrite Hsnd, IH by assumption.
  assert (Hfst : forall r, In r (range_from s (Z.to_nat c)) ->
                 walk_selects ((k, c) :: rest) s uci r = String.eqb k uci).
  { intros r Hr. apply range_from_In in Hr. rewrite Z2Nat.id in Hr by lia.
    unfold walk_selects. simpl.
    destruct (r <=? s + c) eqn:E; [reflexivity|apply Z.leb_gt in E; lia]. }
  unfold count_of at 2. cbn [filter fst].
  destruct (String.eqb k uci) eqn:Ek.
  - rewrite filter_all by exact Hfst. rewrite length_range_from.
    cbn [sum_counts fold_right snd]. fold (sum_counts (filter (fun kc => String.eqb (fst kc) uci) rest)).
    fold (count_of uci rest). rewrite Z2Nat.inj_add by lia. reflexivity.
  - rewrite filter_none by exact Hfst. reflexivity.
Qed.

Lemma count_of_absent uci items :
  ~ In uci (keys items) -> count_of uci items = 0.
Proof.
  unfold count_of. induction items as [|[k c] rest IH]; intros Hnot; [reflexivity|].
  simpl in *. destruct (String.eqb k uci) eqn:E.
  - apply String.eqb_eq in E. tauto.
  - apply IH. tauto.
Qed.

(** In a mapping (keys distinct) the recorded count is the value stored. *)
Lemma count_of_dict uci c items :
  NoDup (keys items) -> dict_get items uci = Some c -> count_of uci items = c.
Proof.
  induction items as [|[k c'] rest IH]; intros Hnd Hget; [discriminate|].
  simpl in *. inversion_clear Hnd as [|? ? Hnot Hnd'].
  unfold count_of. cbn [filter fst]. destruct (String.eqb k uci) eqn:E.
  - injection Hget as ->. apply String.eqb_eq in E. subst k.
    cbn [sum_counts fold_right snd].
    change (fold_right _ 0 ?l) with (sum_counts l).
    fold (count_of uci rest). rewrite count_of_absent by assumption. lia.
  - now apply IH.
Qed.

Lemma weighted_choice_walk moves r :
  1 <= r <= sum_counts moves ->
  exists uci, walk (items moves) r 0 = Some uci /\ weighted_choice moves r = Ok uci.
Proof.
  intros Hr. unfold weighted_choice, items.
  destruct (sum_counts moves <? 1) eqn:E; [apply Z.ltb_lt in E; lia|].
  destruct (walk moves r 0) as [uci|] eqn:Hw; [now exists uci|].
  exfalso. revert Hw. apply walk_finds; lia.
Qed.

End WeightedDraw.

(** C3 (as amended): for a draw [r] within [[1, sum of the counts]] the
    selector returns the first move, in the order the mapping stores its
    moves, whose cumulative count reaches [r]; when the mapping is stored
    by descending count this is the count-descending walk of the design
    document.  Over all draws, a move recorded [c] times in a mapping of
    non-negative counts is selected by exactly [c] of them, so selection
    is proportional to recorded frequency.  For [{"a": 9, "b": 1}] the
    draws 1-9 give ["a"] and the draw 10 gives ["b"]. *)
Theorem weighted_choice_walks_stored_order :
  forall moves : dict Z,
    (forall r, 1 <= r <= MoveService.sum_counts moves ->
       exists pre uci c post,
         MoveService.items moves = pre ++ (uci, c) :: post /\
         MoveService.weighted_choice moves r = Ok uci /\
         r <= MoveService.sum_counts pre + c /\
         (forall pre1 x post1,
             pre = pre1 ++ x :: post1 -> MoveService.sum_counts pre1 + snd x < r) /\
         (descending moves ->
          Design.weighted_choice (MoveService.sum_counts moves) moves r = Some uci)) /\
    (nonneg moves -> NoDup (keys moves) ->
     forall uci c, dict_get moves uci = Some c ->
       List.length (filter (selects moves uci) (draws (MoveService.sum_counts moves)))
       = Z.to_nat c) /\
    map (MoveService.weighted_choice [("a", 9); ("b", 1)]) (draws 10)
    = [Ok "a"; Ok "a"; Ok "a"; Ok "a"; Ok "a"; Ok "a"; Ok "a"; Ok "a"; Ok "a"; Ok "b"].
Proof.
  intros moves. split; [|split; [|reflexivity]].
  - intros r Hr.
    destruct (weighted_choice_walk moves r Hr) as (uci & Hw & Hc).
    destruct (walk_first _ _ _ _ Hw) as (pre & c & post & Hsplit & Hle & Hbefore).
    exists pre, uci, c, post.
    split; [exact Hsplit|]. split; [exact Hc|]. split; [lia|]. split.
    + intros pre1 x post1 E. specialize (Hbefore pre1 x post1 E). lia.
    + intros Hdesc. unfold Design.weighted_choice.
      rewrite (descending_fixed _ Hdesc).
      replace ((1 <=? r) && (r <=? MoveService.sum_counts moves)) with true; [exact Hw|].
      symmetry. apply andb_true_intro. split; apply Z.leb_le; lia.
  - intros Hnn Hnd uci c Hget.
    rewrite <- (count_of_dict uci c moves Hnd Hget).
    rewrite <- (walk_hits uci moves 0 Hnn). unfold draws.
    f_equal. apply filter_ext_in. intros r Hr. apply range_from_In in Hr.
    pose proof (sum_counts_nonneg _ Hnn) as Hs. rewrite Z2Nat.id in Hr by lia.
    destruct (weighted_choice_walk moves r) as (v & Hw & Hc); [lia|].
    unfold selects, walk_selects. unfold MoveService.items in Hw.
    now rewrite Hc, Hw.
Qed.

(** C3, as the design document states it, fails: on the mapping
    [{"b": 1, "a": 9}] the draw 1 gives ["b"], the first move stored,
    where the count-descending walk gives ["a"]. *)
Lemma draw_follows_stored_order_not_count_order :
  MoveService.weighted_choice [("b", 1); ("a", 9)] 1 = Ok "b"
  /\ Design.weighted_choice 10 [("b", 1); ("a", 9)] 1 = Some "a".
Proof. split; reflexivity. Qed.

(* ------------------------------------------------------------------ *)
(** ** The legal-move fallback *)
(* ------------------------------------------------------------------ *)

Section LegalFallback.
Import MoveService.

Lemma mem_In x l : mem x l = true <-> In x l.
Proof.
  unfold mem. rewrite existsb_exists. split.
  - intros (y & Hy & E). apply String.eqb_eq in E. now subst.
  - intros H. exists x. split; [assumption|apply String.eqb_refl].
Qed.

Lemma mem_not_In x l : mem x l = false <-> ~ In x l.
Proof.
  rewrite <- mem_In. destruct (mem x l); split; congruence.
Qed.

Lemma find_first {A} (f : A -> bool) l x :
  find f l = Some x ->
  exists pre post, l = pre ++ x :: post /\ f x = true /\
                   forall y, In y pre -> f y = false.
Proof.
  induction l as [|a l IH]; simpl; [discriminate|].
  destruct (f a) eqn:E.
  - intros [= <-]. exists [], l. repeat split; [assumption|]. intros y [].
  - intros H. destruct (IH H) as (pre & post & -> & Hx & Hpre).
    exists (a :: pre), post. repeat split; [assumption|].
    intros y [<-|Hy]; auto.
Qed.

Lemma keys_perm (l1 l2 : list (string * Z)) :
  Permutation l1 l2 -> Permutation (keys l1) (keys l2).
Proof. apply Permutation_map. Qed.

End LegalFallback.

(** C4 (as amended): when an entry passes the gating checks and the
    drawn move is not legal, the selector rescans the moves by descending
    count, moves of equal count in the order of the mapping, and accepts
    the first legal one with the top ratio as confidence; when no move of
    the entry is legal it rejects with [no_legal_book_move] and the top
    ratio.  The draw walks the mapping in its stored order, which is the
    rescan order exactly when the mapping is stored by descending count. *)
Theorem illegal_draw_rescans_by_count :
  forall chess_Board positions meta req r board entry total moves chosen,
    chess_Board (MoveService.fen req) = Some board ->
    dict_get positions (MoveService.normalize_fen (MoveService.board_fen board))
      = Some entry ->
    MoveService.e_total entry = Some total -> 0 < total ->
    MoveService.e_moves entry = Some moves -> moves <> [] ->
    MoveService.ply req
      < MoveService.get_default (MoveService.m_max_ply_cap meta) 20 ->
    MoveService.get_default (MoveService.m_min_position_count meta) 8 <= total ->
    let top_ratio :=
      (inject_Z (MoveService.max_values (values moves)) / inject_Z total)%Q in
    (MoveService.get_default (MoveService.m_min_top_move_ratio meta) (55 # 100)
       <= top_ratio)%Q ->
    MoveService.weighted_choice moves r = Ok chosen ->
    ~ In chosen (MoveService.legal_moves board) ->
    let rescan := sorted_desc moves in
    let legal := MoveService.legal_moves board in
    Permutation rescan moves /\ descending rescan /\
    (forall c, filter (has_count c) rescan = filter (has_count c) moves) /\
    (rescan = MoveService.items moves <-> descending moves) /\
    ((exists pre uci c post,
         rescan = pre ++ (uci, c) :: post /\
         (forall k, In k (keys pre) -> ~ In k legal) /\ In uci legal /\
         MoveService.get_move chess_Board positions meta req r
         = Ok {| MoveService.move := Some uci;
                 MoveService.source := "opening_book";
                 MoveService.confidence := top_ratio |})
     \/
     ((forall k, In k (keys moves) -> ~ In k legal) /\
      MoveService.get_move chess_Board positions meta req r
      = Ok {| MoveService.move := None;
              MoveService.source := "no_legal_book_move";
              MoveService.confidence := top_ratio |})).
Proof.
  intros chess_Board positions meta req r board entry total moves chosen
    Hb He Ht Hpos Hm Hne Hply Hcount top_ratio Hratio Hdraw Hillegal rescan legal.
  split; [apply sorted_desc_perm|]. split; [apply sorted_desc_descending|].
  split; [intros c; apply sorted_desc_stable|].
  split; [apply sorted_desc_fixed_iff|].
  rewrite (get_move_past_entry_checks chess_Board positions meta
             req r board entry total moves) by assumption.
  cbv zeta.
  destruct (MoveService.ply req >=? _) eqn:Ecap; [apply Z.geb_le in Ecap; lia|].
  destruct (total <? _) eqn:Ecnt; [apply Z.ltb_lt in Ecnt; lia|].
  fold top_ratio.
  destruct (MoveService.Qltb top_ratio _) eqn:Erat.
  { apply Qltb_lt in Erat. exfalso. revert Erat. now apply Qle_not_lt. }
  rewrite Hdraw.
  apply mem_not_In in Hillegal. rewrite Hillegal. cbn [negb].
  fold rescan. fold legal.
  destruct (find (fun kv => MoveService.mem (fst kv) legal) rescan) as [[uci c]|] eqn:Hfind.
  - left. destruct (find_first _ _ _ Hfind) as (pre & post & Hsplit & Hx & Hpre).
    exists pre, uci, c, post. split; [exact Hsplit|]. split.
    + intros k Hk. unfold keys in Hk. apply in_map_iff in Hk.
      destruct Hk as (kc & <- & Hin). apply mem_not_In. now apply Hpre.
    + split; [now apply mem_In|reflexivity].
  - right. split; [|reflexivity].
    intros k Hk. apply mem_not_In.
    assert (Hk' : In k (keys rescan)).
    { eapply Permutation_in; [|exact Hk]. symmetry. apply keys_perm.
      apply sorted_desc_perm. }
    unfold keys in Hk'. apply in_map_iff in Hk'. destruct Hk' as (kc & <- & Hin).
    exact (find_none _ _ Hfind kc Hin).
Qed.

(** C4, as the design document states it, fails: on the mapping
    [{"b": 1, "a": 9}] the draw walks ["b"] before ["a"] and the rescan
    walks ["a"] before ["b"]. *)
Lemma draw_and_rescan_orders_differ :
  MoveService.items [("b", 1); ("a", 9)] = [("b", 1); ("a", 9)]
  /\ sorted_desc [("b", 1); ("a", 9)] = [("a", 9); ("b", 1)]
  /\ MoveService.items [("b", 1); ("a", 9)]
     <> sorted_desc [("b", 1); ("a", 9)].
Proof. repeat split; discriminate. Qed.

(* ------------------------------------------------------------------ *)
(** ** The book builders: what the counters hold *)
(* ------------------------------------------------------------------ *)

Section Counting.
Import MoveService.

Lemma incr_nonempty m u : incr m u <> [].
Proof. destruct m as [|[k v] m]; simpl; [|destruct (String.eqb k u)]; discriminate. Qed.

Lemma incr_sum m u : sum_counts (incr m u) = sum_counts m + 1.
Proof.
  induction m as [|[k v] m IH]; simpl in *; [reflexivity|].
  destruct (String.eqb k u); simpl; lia.
Qed.

Lemma incr_positive m u :
  Forall (fun kc => 1 <= snd kc) m -> Forall (fun kc => 1 <= snd kc) (incr m u).
Proof.
  induction 1 as [|[k v] m Hv Hm IH]; simpl in *.
  - constructor; [simpl; lia|constructor].
  - destruct (String.eqb k u); constructor; simpl; auto; lia.
Qed.

Lemma incr_get d k k' :
  dict_get (incr d k) k' =
    if String.eqb k k'
    then Some (match dict_get d k with Some n => n | None => 0 end + 1)
    else dict_get d k'.
Proof.
  induction d as [|[k0 v] d IH]; simpl.
  - destruct (String.eqb k k'); reflexivity.
  - destruct (String.eqb k0 k) eqn:E0; simpl.
    + apply String.eqb_eq in E0. subst k0.
      destruct (String.eqb k k'); reflexivity.
    + rewrite IH. destruct (String.eqb k k') eqn:E; [|reflexivity].
      apply String.eqb_eq in E. subst k'. now rewrite E0.
Qed.

Lemma incr2_keys d k u :
  keys (incr2 d k u) = if MoveService.mem k (keys d) then keys d else keys d ++ [k].
Proof.
  unfold mem. induction d as [|[k0 m] d IH]; simpl; [reflexivity|].
  rewrite (String.eqb_sym k k0). destruct (String.eqb k0 k) eqn:E; simpl; [reflexivity|].
  rewrite IH. now destruct (existsb (String.eqb k) (keys d)).
Qed.

Lemma incr2_In d k u k' m' :
  NoDup (keys d) -> In (k', m') (incr2 d k u) ->
  (k' <> k /\ In (k', m') d) \/
  (k' = k /\ ((exists m, In (k, m) d /\ m' = incr m u) \/
              (~ In k (keys d) /\ m' = incr [] u))).
Proof.
  induction d as [|[k0 m] d IH]; intros Hnd Hin; simpl in *.
  - destruct Hin as [[= <- <-]|[]]. right. split; [reflexivity|]. right. tauto.
  - inversion_clear Hnd as [|? ? Hnot Hnd'].
    destruct (String.eqb k0 k) eqn:E.
    + apply String.eqb_eq in E. subst k0.
      destruct Hin as [[= <- <-]|Hin].
      * right. split; [reflexivity|]. left. exists m. auto.
      * left. split; [|now right]. intros ->.
        apply Hnot. unfold keys. apply in_map_iff. now exists (k, m').
    + apply String.eqb_neq in E.
      destruct Hin as [[= <- <-]|Hin]; [left; split; [exact E|now left]|].
      destruct (IH Hnd' Hin) as [[Hne H]|[-> [(m0 & H & ->)|[Hnk ->]]]].
      * left. split; [exact Hne|now right].
      * right. split; [reflexivity|]. left. exists m0. split; [now right|reflexivity].
      * right. split; [reflexivity|]. right. split; [|reflexivity].
        intros [Heq|Hk]; [now apply E|now apply Hnk].
Qed.

Lemma counters_ok_empty : counters_ok no_counts.
Proof.
  unfold counters_ok, no_counts. simpl. split; [constructor|].
  split; [reflexivity|]. intros k m [].
Qed.

(** Counting one move keeps the two counters in agreement. *)
Lemma count_move_ok st fen_key uci :
  counters_ok st -> counters_ok (count_move st fen_key uci).
Proof.
  intros (Hnd & Hnone & Hall). unfold counters_ok, count_move. simpl.
  split; [|split].
  - rewrite incr2_keys. destruct (mem fen_key (keys (move_counts st))) eqn:E; [assumption|].
    apply mem_not_In in E. apply NoDup_app; [assumption|repeat constructor; intros []|].
    intros x Hx [<-|[]]. contradiction.
  - intros k Hk. rewrite incr_get. rewrite incr2_keys in Hk.
    destruct (String.eqb fen_key k) eqn:E.
    + apply String.eqb_eq in E. subst k. exfalso. apply Hk.
      destruct (mem fen_key (keys (move_counts st))) eqn:Em.
      * now apply mem_In.
      * apply in_or_app. right. now left.
    + apply Hnone. intros Hin. apply Hk.
      destruct (mem fen_key (keys (move_counts st))); [assumption|].
      apply in_or_app. now left.
  - intros k m Hin. rewrite incr_get.
    destruct (incr2_In _ _ _ _ _ Hnd Hin) as [[Hne H]|[-> [(m0 & H & ->)|[Hnk ->]]]].
    + destruct (Hall _ _ H) as (H1 & H2 & H3).
      apply String.eqb_neq in Hne. rewrite String.eqb_sym in Hne. now rewrite Hne.
    + destruct (Hall _ _ H) as (H1 & H2 & H3).
      rewrite String.eqb_refl, H3. split; [apply incr_nonempty|].
      split; [now apply incr_positive|]. now rewrite incr_sum.
    + rewrite String.eqb_refl, (Hnone _ Hnk). simpl.
      split; [discriminate|]. split; [|reflexivity].
      constructor; [simpl; lia|constructor].
Qed.

Lemma plain_replay_ok cap moves : forall ply st,
  counters_ok st -> counters_ok (BookBuilder.replay cap moves ply st).
Proof.
  induction moves as [|mv moves IH]; intros ply st Hst; simpl; [assumption|].
  destruct (ply >=? cap); [assumption|]. apply IH. now apply count_move_ok.
Qed.

Lemma plain_aggregate_ok games cap :
  counters_ok (BookBuilder.aggregate games cap).
Proof.
  unfold BookBuilder.aggregate.
  assert (H : forall st, counters_ok st ->
              counters_ok (fold_left (BookBuilder.process_game cap) games st)).
  { induction games as [|g games IH]; intros st Hst; simpl; [assumption|].
    apply IH. unfold BookBuilder.process_game.
    destruct (negb _); [assumption|].
    destruct (pgn_to_game g); [|assumption]. now apply plain_replay_ok. }
  apply H, counters_ok_empty.
Qed.

Lemma turnonly_replay_ok white cap moves : forall ply st,
  counters_ok st -> counters_ok (BookBuilderTurnOnly.replay white cap moves ply st).
Proof.
  induction moves as [|mv moves IH]; intros ply st Hst; simpl; [assumption|].
  destruct (ply >=? cap); [assumption|]. apply IH.
  destruct (hm_white_to_move mv), white; simpl; auto using count_move_ok.
Qed.

Lemma turnonly_aggregate_ok games player cap :
  counters_ok (BookBuilderTurnOnly.counters (BookBuilderTurnOnly.aggregate games player cap)).
Proof.
  unfold BookBuilderTurnOnly.aggregate.
  assert (H : forall p, counters_ok (BookBuilderTurnOnly.counters p) ->
              counters_ok (BookBuilderTurnOnly.counters
                 (fold_left (BookBuilderTurnOnly.process_game player cap) games p))).
  { induction games as [|g games IH]; intros p Hp; simpl; [assumption|].
    apply IH. unfold BookBuilderTurnOnly.process_game.
    destruct (negb (PyStr.truthy _)); [assumption|].
    destruct (pgn_to_game g); [|assumption].
    destruct (_ && _); [assumption|]. simpl. now apply turnonly_replay_ok. }
  apply H, counters_ok_empty.
Qed.

Lemma sum_counts_perm l1 l2 :
  Permutation l1 l2 -> sum_counts l1 = sum_counts l2.
Proof. induction 1; simpl in *; lia. Qed.

Lemma positive_bounded m :
  Forall (fun kc => 1 <= snd kc) m ->
  forall kc, In kc m -> 1 <= snd kc <= sum_counts m.
Proof.
  induction 1 as [|[k v] m Hv Hm IH]; intros kc Hin; [destruct Hin|].
  assert (0 <= sum_counts m).
  { apply sum_counts_nonneg. unfold nonneg. eapply Forall_impl; [|exact Hm].
    simpl. intros. lia. }
  simpl in *. destruct Hin as [<-|Hin]; simpl; [lia|].
  specialize (IH _ Hin). lia.
Qed.

(** Agreeing counters emit entries that satisfy the BookEntry invariant. *)
Lemma positions_out_ok st key total moves :
  counters_ok st -> In (key, (total, moves)) (positions_out st) ->
  entry_ok total moves /\ descending moves.
Proof.
  intros (Hnd & Hnone & Hall) Hin. unfold positions_out in Hin.
  apply in_map_iff in Hin. destruct Hin as ([k m] & [= <- <- <-] & Hin).
  destruct (Hall _ _ Hin) as (Hne & Hpos & Htot). rewrite Htot.
  pose proof (sorted_desc_perm m) as Hperm.
  assert (Hsum : sum_counts (sorted_desc m) = sum_counts m)
    by now apply sum_counts_perm.
  assert (Hne' : sorted_desc m <> []).
  { intros E. rewrite E in Hperm. apply Permutation_nil in Hperm. contradiction. }
  assert (Hbound : forall c, In c (values (sorted_desc m)) -> 1 <= c <= sum_counts m).
  { intros c Hc. unfold values in Hc. apply in_map_iff in Hc.
    destruct Hc as (kc & <- & Hkc). apply positive_bounded; [assumption|].
    eapply Permutation_in; eassumption. }
  split; [|apply sorted_desc_descending].
  unfold entry_ok. split; [assumption|]. split; [now rewrite Hsum|].
  split; [assumption|].
  assert (Hv : values (sorted_desc m) <> []).
  { destruct (sorted_desc m); [congruence|discriminate]. }
  destruct (max_values_greatest _ Hv) as [Hmax _]. now apply Hbound.
Qed.

End Counting.

(** C8: every position entry emitted by either book builder has a
    non-empty moves mapping and a total equal to the sum of its move
    counts, hence at least its greatest move count. *)
Theorem emitted_entries_satisfy_book_entry_invariant :
  forall (games : list GameRecord) (player : string) (max_ply_cap : Z)
         (key : string) (total : Z) (moves : dict Z),
    (In (key, (total, moves))
        (positions_out (BookBuilder.aggregate games max_ply_cap)) ->
     moves <> [] /\ total = MoveService.sum_counts moves /\
     MoveService.max_values (values moves) <= total /\
     forall c, In c (values moves) -> 1 <= c <= total) /\
    (In (key, (total, moves))
        (positions_out
           (BookBuilderTurnOnly.counters
              (BookBuilderTurnOnly.aggregate games player max_ply_cap))) ->
     moves <> [] /\ total = MoveService.sum_counts moves /\
     MoveService.max_values (values moves) <= total /\
     forall c, In c (values moves) -> 1 <= c <= total).
Proof.
  intros games player cap key total moves. split; intros Hin.
  - destruct (positions_out_ok _ _ _ _ (plain_aggregate_ok games cap) Hin)
      as [(H1 & H2 & H3 & H4) _]. auto.
  - destruct (positions_out_ok _ _ _ _ (turnonly_aggregate_ok games player cap) Hin)
      as [(H1 & H2 & H3 & H4) _]. auto.
Qed.

(** C7 (as amended): on every non-empty list of games both builders
    return an artifact with a ["meta"] object and a ["positions"] object,
    every position entry has the keys ["total"] and ["moves"], and both
    ["meta"] objects carry ["player"], ["source"], ["max_ply_cap"] and
    ["fen_format"].  Only the plain builder writes ["adaptive"],
    ["min_position_count"] and ["min_top_move_ratio"]; only the turn-only
    builder writes ["note"] and a third top-level key ["stats"]. *)
Theorem builders_share_core_shape_only :
  forall (games : list GameRecord) (player : string)
         (max_ply_cap min_position_count : Z) (min_top_move_ratio : Q),
    games <> [] ->
    let plain :=
      BookBuilder.build_opening_book games max_ply_cap min_position_count
        min_top_move_ratio in
    let turn := BookBuilderTurnOnly.build_opening_book games player max_ply_cap in
    (exists book, plain = Ok book) /\ (exists book, turn = Ok book) /\
    artifact_keys plain = ["meta"; "positions"] /\
    artifact_keys turn = ["meta"; "positions"; "stats"] /\
    artifact_meta_keys plain
      = ["player"; "source"; "adaptive"; "min_position_count";
         "min_top_move_ratio"; "max_ply_cap"; "fen_format"] /\
    artifact_meta_keys turn
      = ["player"; "source"; "note"; "max_ply_cap"; "fen_format"] /\
    Forall (fun ks => ks = ["total"; "moves"]) (artifact_entry_keys plain) /\
    Forall (fun ks => ks = ["total"; "moves"]) (artifact_entry_keys turn).
Proof.
  intros games player cap minc minr Hne plain turn. subst plain turn.
  destruct games as [|g games]; [congruence|].
  unfold BookBuilder.build_opening_book, BookBuilderTurnOnly.build_opening_book.
  cbv zeta.
  split; [eexists; reflexivity|]. split; [eexists; reflexivity|].
  split; [reflexivity|]. split; [reflexivity|].
  split; [reflexivity|]. split; [reflexivity|].
  assert (Hshape : forall ps,
            Forall (fun ks => ks = ["total"; "moves"])
              (map (fun e : string * json => json_keys (snd e))
                 (map (fun e : string * (Z * dict Z) =>
                         (fst e, JObj [("total", JInt (fst (snd e)));
                                       ("moves", json_counts (snd (snd e)))])) ps))).
  { intros ps. induction ps as [|e ps IH]; simpl; constructor; auto. }
  split; apply Hshape.
Qed.

(** C7, as the design document states it, fails: for the one-game export
    the two artifacts have different top-level keys, and the turn-only
    ["meta"] has neither ["min_position_count"] nor
    ["min_top_move_ratio"]. *)
Lemma builders_emit_different_shapes :
  artifact_keys (BookBuilder.build_opening_book [Sample.game_e4_e5] 20 8 (55 # 100))
    = ["meta"; "positions"]
  /\ artifact_keys (BookBuilderTurnOnly.build_opening_book [Sample.game_e4_e5] "capo298" 20)
     = ["meta"; "positions"; "stats"]
  /\ artifact_meta_keys (BookBuilder.build_opening_book [Sample.game_e4_e5] 20 8 (55 # 100))
     = ["player"; "source"; "adaptive"; "min_position_count";
        "min_top_move_ratio"; "max_ply_cap"; "fen_format"]
  /\ artifact_meta_keys
       (BookBuilderTurnOnly.build_opening_book [Sample.game_e4_e5] "capo298" 20)
     = ["player"; "source"; "note"; "max_ply_cap"; "fen_format"]
  /\ artifact_keys (BookBuilder.build_opening_book [Sample.game_e4_e5] 20 8 (55 # 100))
     <> artifact_keys
          (BookBuilderTurnOnly.build_opening_book [Sample.game_e4_e5] "capo298" 20)
  /\ artifact_meta_keys (BookBuilder.build_opening_book [Sample.game_e4_e5] 20 8 (55 # 100))
     <> artifact_meta_keys
          (BookBuilderTurnOnly.build_opening_book [Sample.game_e4_e5] "capo298" 20).
Proof. repeat split; discriminate. Qed.

Example plain_book_of_one_game :
  positions_out (BookBuilder.aggregate [Sample.game_e4_e5] 20)
  = [("rnbqkbnr/pppppppp/8/8/8/8/PPPPPPPP/RNBQKBNR w KQkq -", (1, [("e2e4", 1)]));
     ("rnbqkbnr/pppppppp/8/8/4P3/8/PPPP1PPP/RNBQKBNR b KQkq -", (1, [("e7e5", 1)]))].
Proof. reflexivity. Qed.

Example turnonly_book_of_one_game :
  positions_out
    (BookBuilderTurnOnly.counters
       (BookBuilderTurnOnly.aggregate [Sample.game_e4_e5] "capo298" 20))
  = [("rnbqkbnr/pppppppp/8/8/8/8/PPPPPPPP/RNBQKBNR w KQkq -", (1, [("e2e4", 1)]))].
Proof. reflexivity. Qed.

(* ------------------------------------------------------------------ *)
(** ** The engine process manager: [bestmove] and its deadline *)
(* ------------------------------------------------------------------ *)

Section EngineReads.
Import UciWrapper.

Lemma gtb_false a b : a <= b -> (a >? b) = false.
Proof. intros H. rewrite Z.gtb_ltb. now apply Z.ltb_ge. Qed.

Lemma gtb_true a b : b < a -> (a >? b) = true.
Proof. intros H. rewrite Z.gtb_ltb. now apply Z.ltb_lt. Qed.







(** X17: when the first line read is not the announcement and comes back
    more than 20 seconds after the call, [bestmove] returns the sentinel
    ["0000"] at its next look at the clock, whatever the engine writes
    afterwards. *)
Lemma bestmove_sentinel_after_late_line show sf fen ms rd rest :
  pending sf = rd :: rest -> plain_line "bestmove" rd ->
  clock sf + 20000 < at_ms rd ->
  exists sf', bestmove show sf fen ms = Returns "0000" sf'.
Proof.
  intros E [Ht Hp] Hlate. unfold bestmove, _read_until.
  cbn [_send sent pending clock]. rewrite E. cbn [read_loop].
  rewrite gtb_false by lia.
  rewrite Ht, Hp. cbn [negb].
  destruct rest as [|rd' rest']; cbn [read_loop];
    rewrite gtb_true by lia; eauto.
Qed.

Lemma read_loop_announced sent0 start pre : forall now lines rd rest,
  Forall (plain_line "bestmove") pre ->
  Forall (fun p => at_ms p <= start + 20000) pre ->
  now <= start + 20000 ->
  PyStr.truthy (text rd) = true ->
  PyStr.startswith (PyStr.strip (text rd)) "bestmove" = true ->
  exists lines' sf,
    read_loop sent0 "bestmove" 20000 start now lines (pre ++ rd :: rest)
    = Returns (lines', Some (PyStr.strip (text rd))) sf.
Proof.
  induction pre as [|p pre IH]; intros now lines rd rest Hplain Hin Hnow Ht Hs.
  - cbn [app read_loop].
    rewrite gtb_false by lia.
    rewrite Ht, Hs. cbn [negb]. eauto.
  - inversion_clear Hplain as [|? ? [Hpt Hpp] Hplain'].
    inversion_clear Hin as [|? ? Hp Hin'].
    cbn [app read_loop].
    rewrite gtb_false by lia.
    rewrite Hpt, Hpp. cbn [negb]. apply IH; auto. lia.
Qed.

(** X15: when a line starting with ["bestmove"] arrives and every line
    before it was some other output that came back within 20 seconds of
    the call, [bestmove] returns the second field of that line, the move
    the engine announces. *)
Lemma bestmove_returns_announced_move show sf fen ms pre rd rest tok :
  pending sf = pre ++ rd :: rest ->
  Forall (plain_line "bestmove") pre ->
  Forall (fun p => at_ms p <= clock sf + 20000) pre ->
  PyStr.truthy (text rd) = true ->
  PyStr.startswith (PyStr.strip (text rd)) "bestmove" = true ->
  nth_error (PyStr.split (PyStr.strip (text rd))) 1 = Some tok ->
  exists sf', bestmove show sf fen ms = Returns tok sf'.
Proof.
  intros E Hplain Hin Ht Hs Htok. unfold bestmove, _read_until.
  cbn [_send sent pending clock]. rewrite E.
  match goal with
  | |- context [read_loop ?s _ _ _ _ _ _] =>
      destruct (read_loop_announced s (clock sf) pre (clock sf) [] rd rest
                  Hplain Hin) as (lines' & sf' & ->);
        [lia|assumption|assumption|]
  end.
  set (line := PyStr.strip (text rd)) in *.
  assert (Hline : PyStr.truthy line = true).
  { destruct line; [discriminate Hs|reflexivity]. }
  rewrite Hline. cbn [negb].
  destruct (PyStr.split line) as [|p0 [|p1 ps]] eqn:Esplit; try discriminate.
  injection Htok as ->. exists sf'. unfold PyStr.len. cbn [List.length nth].
  destruct (Z.of_nat (S (S (List.length ps))) >=? 2) eqn:Ege; [reflexivity|].
  rewrite Z.geb_leb in Ege. apply Z.leb_gt in Ege. lia.
Qed.

End EngineReads.

(** C5, evaluated where the code departs from it: an engine that writes
    nothing and keeps its stdout open holds [bestmove] inside [readline]
    for ever, deadline or not; and a best-move line that arrives only 25
    seconds after the call is still returned as the move, not replaced
    by the sentinel. *)
Theorem bestmove_deadline_is_not_enforced_inside_readline :
  (forall show fen movetime_ms sent0 now,
      UciWrapper.bestmove show
        {| UciWrapper.sent := sent0; UciWrapper.pending := []; UciWrapper.clock := now |}
        fen movetime_ms
      = UciWrapper.Blocks) /\
  UciWrapper.bestmove Sample.show_250 Sample.silent_engine
    "8/8/8/4k3/8/8/4K3/4R3 w - - 0 1" 250
  = UciWrapper.Blocks /\
  UciWrapper.bestmove Sample.show_250 Sample.late_engine
    "8/8/8/4k3/8/8/4K3/4R3 w - - 0 1" 250
  = UciWrapper.Returns "e2e4"
      {| UciWrapper.sent :=
           ["position fen 8/8/8/4k3/8/8/4K3/4R3 w - - 0 1"; "go movetime 250"];
         UciWrapper.pending := [];
         UciWrapper.clock := 25000 |}.
Proof.
  split; [|split; reflexivity].
  intros show fen ms sent0 now.
  unfold UciWrapper.bestmove, UciWrapper._read_until.
  cbn [UciWrapper._send UciWrapper.sent UciWrapper.pending UciWrapper.clock
       UciWrapper.read_loop].
  rewrite gtb_false by lia.
  reflexivity.
Qed.

(* ------------------------------------------------------------------ *)
(** ** The relay: one answer per search command *)
(* ------------------------------------------------------------------ *)

Section Relay.
Import UciWrapper.

Variable show : Z -> string.
Variable show3 : Q -> string.
Variable post : string -> Z -> Exchange.

Lemma log_is_no_bestmove msg :
  PyStr.startswith (log msg) "bestmove " = false.
Proof. reflexivity. Qed.

Lemma bestmove_is_bestmove m :
  PyStr.startswith ("bestmove " ++ m)%string "bestmove " = true.
Proof. reflexivity. Qed.

(** What a search prints holds one announcement. *)
Lemma bestmove_lines_of_answer msg m :
  bestmove_lines [log msg; ("bestmove " ++ m)%string] = [("bestmove " ++ m)%string].
Proof.
  unfold bestmove_lines. cbn [filter].
  now rewrite log_is_no_bestmove, bestmove_is_bestmove.
Qed.

(** [request_book_move] against [accepted_move]. *)
Lemma request_accepted fen ply m :
  accepted_move (post fen ply) = Some m ->
  exists source conf,
    request_book_move post fen ply = (Some m, source, conf) /\
    option_truthy (Some m) = true.
Proof.
  unfold accepted_move, request_book_move.
  destruct (post fen ply) as [| | |data]; try discriminate.
  destruct (MoveService.move data) as [m'|]; [|discriminate].
  destruct (PyStr.truthy m') eqn:Ht; [|discriminate].
  intros [= ->]. eexists _, _. split; [reflexivity|exact Ht].
Qed.


Lemma go_accepted st sf fen sf1 m :
  fen_to_use st sf = Returns fen sf1 ->
  accepted_move (post fen (ply_from_moves (current_moves_uci st))) = Some m ->
  exists out,
    go show show3 post st sf = Returns out sf1 /\
    bestmove_lines out = [("bestmove " ++ m)%string].
Proof.
  intros Hfen Hacc. unfold go. rewrite Hfen.
  destruct (request_accepted _ _ _ Hacc) as (source & conf & -> & ->).
  eexists. split; [reflexivity|]. apply bestmove_lines_of_answer.
Qed.






End Relay.

Example go_with_unreachable_service_and_silent_engine :
  UciWrapper.go Sample.show_250 Sample.show_0 Sample.unreachable
    Sample.explicit_session Sample.silent_engine
  = UciWrapper.Blocks.
Proof. reflexivity. Qed.

Example relay_session :
  UciWrapper.main_loop Sample.show_250 Sample.show_0 Sample.unreachable
    ["uci"; "isready"; "position fen 8/8/8/4k3/8/8/4K3/4R3 w - - 0 1";
     "go movetime 250"; "quit"]
    UciWrapper.initial_session Sample.prompt_engine
  = UciWrapper.Returns
      ["id name capo298bot-uci"; "id author you"; "uciok"; "readyok";
       "info string sf e1e2"; "bestmove e1e2"]
      {| UciWrapper.sent :=
           ["position fen 8/8/8/4k3/8/8/4K3/4R3 w - - 0 1"; "go movetime 250"; "quit"];
         UciWrapper.pending := [];
         UciWrapper.clock := 200 |}.
Proof. reflexivity. Qed.


(* ------------------------------------------------------------------ *)
(** ** Instances *)
(* ------------------------------------------------------------------ *)


(** The ply cap on an entry that passes the hit and emptiness checks. *)
Lemma ply_cap_rejects_after_entry_checks_instance :
  MoveService.get_default (MoveService.m_max_ply_cap Sample.no_meta) 20
    <= MoveService.ply (Sample.req 20)
  /\ MoveService.get_move Sample.only_start (Sample.book [("e2e4", 9)] 9)
       Sample.no_meta (Sample.req 20) 1
     = Ok {| MoveService.move := None; MoveService.source := "ply_cap";
             MoveService.confidence := 0 |}.
Proof.
  split; [simpl; lia|].
  apply (proj2 (ply_cap_rejects_after_entry_checks Sample.only_start
                  (Sample.book [("e2e4", 9)] 9) Sample.no_meta (Sample.req 20) 1
                  ltac:(simpl; lia))
           Sample.start_board
           {| MoveService.e_total := Some 9; MoveService.e_moves := Some [("e2e4", 9)] |}
           9 [("e2e4", 9)]);
    first [reflexivity|lia|discriminate].
Defined.

(** The draw on [{"a": 9, "b": 1}]: the draw 10 ends on ["b"], and nine
    of the ten draws end on ["a"]. *)
Lemma weighted_choice_walks_stored_order_instance :
  1 <= 10 <= MoveService.sum_counts [("a", 9); ("b", 1)]
  /\ (exists pre uci c post,
        MoveService.items [("a", 9); ("b", 1)] = pre ++ (uci, c) :: post /\
        MoveService.weighted_choice [("a", 9); ("b", 1)] 10 = Ok uci /\
        10 <= MoveService.sum_counts pre + c /\
        (forall pre1 x post1,
            pre = pre1 ++ x :: post1 -> MoveService.sum_counts pre1 + snd x < 10) /\
        (descending [("a", 9); ("b", 1)] ->
         Design.weighted_choice (MoveService.sum_counts [("a", 9); ("b", 1)])
           [("a", 9); ("b", 1)] 10 = Some uci))
  /\ List.length (filter (selects [("a", 9); ("b", 1)] "a")
                    (draws (MoveService.sum_counts [("a", 9); ("b", 1)])))
     = Z.to_nat 9.
Proof.
  split; [simpl; lia|]. split.
  - apply (proj1 (weighted_choice_walks_stored_order [("a", 9); ("b", 1)]) 10).
    simpl; lia.
  - apply (proj1 (proj2 (weighted_choice_walks_stored_order [("a", 9); ("b", 1)]))).
    + repeat constructor; simpl; lia.
    + repeat constructor; simpl; intuition discriminate.
    + reflexivity.
Defined.

(** The fallback on an entry whose drawn move, [a2a3], is not legal:
    the rescan passes [a2a3] and [h2h3] and accepts [d2d4]. *)
Lemma illegal_draw_rescans_by_count_instance :
  (exists pre uci c post,
      sorted_desc [("a2a3", 9); ("h2h3", 7); ("d2d4", 3); ("e2e4", 3)]
      = pre ++ (uci, c) :: post /\
      (forall k, In k (keys pre) ->
                 ~ In k (MoveService.legal_moves Sample.start_board)) /\
      In uci (MoveService.legal_moves Sample.start_board) /\
      MoveService.get_move Sample.only_start
        (Sample.book [("a2a3", 9); ("h2h3", 7); ("d2d4", 3); ("e2e4", 3)] 22)
        {| MoveService.m_min_position_count := None;
           MoveService.m_min_top_move_ratio := Some (1 # 4);
           MoveService.m_max_ply_cap := None |} (Sample.req 0) 1
      = Ok {| MoveService.move := Some uci;
              MoveService.source := "opening_book";
              MoveService.confidence := (inject_Z 9 / inject_Z 22)%Q |})
  \/
  ((forall k, In k (keys [("a2a3", 9); ("h2h3", 7); ("d2d4", 3); ("e2e4", 3)]) ->
              ~ In k (MoveService.legal_moves Sample.start_board)) /\
   MoveService.get_move Sample.only_start
     (Sample.book [("a2a3", 9); ("h2h3", 7); ("d2d4", 3); ("e2e4", 3)] 22)
     {| MoveService.m_min_position_count := None;
        MoveService.m_min_top_move_ratio := Some (1 # 4);
        MoveService.m_max_ply_cap := None |} (Sample.req 0) 1
   = Ok {| MoveService.move := None;
           MoveService.source := "no_legal_book_move";
           MoveService.confidence := (inject_Z 9 / inject_Z 22)%Q |}).
Proof.
  refine (proj2 (proj2 (proj2 (proj2
    (illegal_draw_rescans_by_count Sample.only_start
       (Sample.book [("a2a3", 9); ("h2h3", 7); ("d2d4", 3); ("e2e4", 3)] 22)
       {| MoveService.m_min_position_count := None;
          MoveService.m_min_top_move_ratio := Some (1 # 4);
          MoveService.m_max_ply_cap := None |}
       (Sample.req 0) 1 Sample.start_board
       {| MoveService.e_total := Some 22;
          MoveService.e_moves :=
            Some [("a2a3", 9); ("h2h3", 7); ("d2d4", 3); ("e2e4", 3)] |}
       22 [("a2a3", 9); ("h2h3", 7); ("d2d4", 3); ("e2e4", 3)] "a2a3"
       eq_refl eq_refl eq_refl _ eq_refl _ _ _ _ eq_refl _))))).
  - lia.
  - discriminate.
  - simpl; lia.
  - simpl; lia.
  - simpl. unfold Qle. simpl. lia.
  - simpl. intuition discriminate.
Defined.


(** The plain builder on the one-game export: the entry of the starting
    position. *)
Lemma emitted_entries_satisfy_book_entry_invariant_instance :
  In ("rnbqkbnr/pppppppp/8/8/8/8/PPPPPPPP/RNBQKBNR w KQkq -", (1, [("e2e4", 1)]))
     (positions_out (BookBuilder.aggregate [Sample.game_e4_e5] 20))
  /\ ([("e2e4", 1)] <> [] /\ 1 = MoveService.sum_counts [("e2e4", 1)] /\
      MoveService.max_values (values [("e2e4", 1)]) <= 1 /\
      forall c, In c (values [("e2e4", 1)]) -> 1 <= c <= 1).
Proof.
  split; [left; reflexivity|].
  apply (proj1 (emitted_entries_satisfy_book_entry_invariant
                  [Sample.game_e4_e5] "capo298" 20
                  "rnbqkbnr/pppppppp/8/8/8/8/PPPPPPPP/RNBQKBNR w KQkq -"
                  1 [("e2e4", 1)])).
  left; reflexivity.
Defined.

(** Both builders on the one-game export. *)
Lemma builders_share_core_shape_only_instance :
  [Sample.game_e4_e5] <> []
  /\ artifact_keys
       (BookBuilderTurnOnly.build_opening_book [Sample.game_e4_e5] "capo298" 20)
     = ["meta"; "positions"; "stats"].
Proof.
  split; [discriminate|].
  apply (builders_share_core_shape_only [Sample.game_e4_e5] "capo298" 20 8 (55 # 100)).
  discriminate.
Defined.

(** A text the chess library does not parse. *)
Lemma invalid_fen_is_rejected_instance :
  Sample.only_start (MoveService.fen
                       {| MoveService.fen := "not a position"; MoveService.ply := 3;
                          MoveService.mode := "capo298bot" |}) = None
  /\ MoveService.get_move Sample.only_start (Sample.book [("e2e4", 9)] 9) Sample.no_meta
       {| MoveService.fen := "not a position"; MoveService.ply := 3;
          MoveService.mode := "capo298bot" |} 1
     = Ok {| MoveService.move := None; MoveService.source := "invalid_fen";
             MoveService.confidence := 0 |}.
Proof.
  split; [reflexivity|].
  apply (invalid_fen_is_rejected Sample.only_start). reflexivity.
Defined.

(* ================================================================== *)
(** * Further properties of the sources *)
(* ================================================================== *)

(* ------------------------------------------------------------------ *)
(** ** The move service beyond the decision chain *)
(* ------------------------------------------------------------------ *)

Section ServiceOutcomes.
Import MoveService.

Lemma walk_returns_key items : forall r s uci,
  walk items r s = Some uci -> In uci (keys items).
Proof.
  induction items as [|[k c] rest IH]; intros r s uci H; simpl in *; [discriminate|].
  destruct (r <=? s + c).
  - injection H as <-. now left.
  - right. eapply IH. eassumption.
Qed.

Lemma weighted_choice_ok_key moves r uci :
  weighted_choice moves r = Ok uci -> In uci (keys moves) /\ 1 <= sum_counts moves.
Proof.
  unfold weighted_choice, items.
  destruct (sum_counts moves <? 1) eqn:E; [discriminate|].
  apply Z.ltb_ge in E. intros H. split; [|exact E].
  destruct (walk moves r 0) as [v|] eqn:Hw.
  - injection H as <-. eapply walk_returns_key. eassumption.
  - destruct moves as [|[k c] rest]; [discriminate|].
    injection H as <-. now left.
Qed.

Lemma weighted_choice_raises moves r e :
  weighted_choice moves r = Raise e -> e = ValueError /\ sum_counts moves < 1.
Proof.
  unfold weighted_choice, items.
  destruct (sum_counts moves <? 1) eqn:E.
  - apply Z.ltb_lt in E. intros [= <-]. auto.
  - apply Z.ltb_ge in E. destruct (walk moves r 0); [discriminate|].
    destruct moves as [|[k c] rest]; [|discriminate].
    simpl in E. lia.
Qed.

End ServiceOutcomes.

(** X1: whatever integer stands for the draw, also one outside the range,
    [weighted_choice] raises nothing but [ValueError], and that exactly
    when the counts sum to less than one; otherwise it returns a key of
    the mapping.  The closing [return items[0][0]] therefore never meets
    an empty list. *)
Theorem weighted_choice_returns_a_key_or_value_error :
  forall (moves : dict Z) (r : Z),
    (MoveService.sum_counts moves < 1 ->
     MoveService.weighted_choice moves r = Raise ValueError) /\
    (1 <= MoveService.sum_counts moves ->
     exists uci, MoveService.weighted_choice moves r = Ok uci /\ In uci (keys moves)).
Proof.
  intros moves r. split; intros H.
  - unfold MoveService.weighted_choice, MoveService.items.
    apply Z.ltb_lt in H. now rewrite H.
  - destruct (MoveService.weighted_choice moves r) as [uci|e] eqn:E.
    + exists uci. split; [reflexivity|]. now apply (weighted_choice_ok_key moves r).
    + apply weighted_choice_raises in E. lia.
Qed.

Lemma weighted_choice_returns_a_key_or_value_error_instance :
  1 <= MoveService.sum_counts [("e2e4", 3); ("d2d4", 1)]
  /\ exists uci,
       MoveService.weighted_choice [("e2e4", 3); ("d2d4", 1)] 99 = Ok uci /\
       In uci (keys [("e2e4", 3); ("d2d4", 1)]).
Proof.
  split; [simpl; lia|].
  apply (proj2 (weighted_choice_returns_a_key_or_value_error
                  [("e2e4", 3); ("d2d4", 1)] 99)).
  simpl; lia.
Defined.

Section ServiceCases.
Import MoveService.

Variable chess_Board : string -> option Board.
Variable positions : dict Entry.
Variable meta : Meta.

Lemma moves_present entry :
  get_default (e_moves entry) [] <> [] ->
  e_moves entry = Some (get_default (e_moves entry) []).
Proof. destruct (e_moves entry); simpl; congruence. Qed.

(** Every way [get_move] can end, with what is known at that point. *)
Lemma get_move_outcome req r :
  let res := get_move chess_Board positions meta req r in
  (chess_Board (fen req) = None /\ res = reject "invalid_fen" 0) \/
  exists board,
    chess_Board (fen req) = Some board /\
    (res = reject "no_book_hit" 0 \/ res = reject "empty_entry" 0 \/
     exists entry total moves,
       dict_get positions (normalize_fen (board_fen board)) = Some entry /\
       e_moves entry = Some moves /\ total = get_default (e_total entry) 0 /\
       moves <> [] /\ 0 < total /\
       let top_ratio := (inject_Z (max_values (values moves)) / inject_Z total)%Q in
       let legal := legal_moves board in
       (res = reject "ply_cap" 0 \/
        res = reject "below_min_count" top_ratio \/
        res = reject "low_confidence" top_ratio \/
        (sum_counts moves < 1 /\ res = Raise ValueError) \/
        exists chosen,
          weighted_choice moves r = Ok chosen /\
          ((In chosen legal /\
            res = Ok {| move := Some chosen; source := "opening_book";
                        confidence := top_ratio |}) \/
           (~ In chosen legal /\
            exists pre uci c post,
              sorted_desc moves = pre ++ (uci, c) :: post /\
              (forall kc, In kc pre -> ~ In (fst kc) legal) /\ In uci legal /\
              res = Ok {| move := Some uci; source := "opening_book";
                          confidence := top_ratio |}) \/
           (~ In chosen legal /\
            (forall k, In k (keys moves) -> ~ In k legal) /\
            res = reject "no_legal_book_move" top_ratio)))).
Proof.
  cbv zeta. unfold get_move.
  destruct (chess_Board (fen req)) as [board|] eqn:Hb; [right|left; auto].
  exists board. split; [reflexivity|].
  destruct (dict_get positions (normalize_fen (board_fen board))) as [entry|] eqn:He;
    [|now left].
  destruct (entry_falsy entry); [now left|].
  destruct (is_empty (get_default (e_moves entry) []) ||
            (get_default (e_total entry) 0 <=? 0)) eqn:Hemp; [right; now left|].
  apply orb_false_elim in Hemp. destruct Hemp as [Hne Hpos].
  apply Z.leb_gt in Hpos.
  assert (Hne' : get_default (e_moves entry) [] <> []).
  { intros E. rewrite E in Hne. discriminate. }
  right. right.
  exists entry, (get_default (e_total entry) 0), (get_default (e_moves entry) []).
  split; [reflexivity|]. split; [now apply moves_present|].
  split; [reflexivity|]. split; [exact Hne'|]. split; [exact Hpos|].
  set (moves := get_default (e_moves entry) []) in *.
  set (total := get_default (e_total entry) 0) in *.
  destruct (ply req >=? _); [now left|].
  destruct (total <? _); [right; now left|].
  destruct (Qltb _ _); [right; right; now left|].
  right. right. right.
  destruct (weighted_choice moves r) as [chosen|e] eqn:Hwc.
  - right. exists chosen. split; [reflexivity|].
    destruct (mem chosen (legal_moves board)) eqn:Hmem; cbn [negb].
    + left. split; [now apply mem_In|reflexivity].
    + apply mem_not_In in Hmem. right.
      destruct (find (fun kv => mem (fst kv) (legal_moves board)) (sorted_desc moves))
        as [[uci c]|] eqn:Hfind.
      * left. split; [exact Hmem|].
        destruct (find_first _ _ _ Hfind) as (pre & post & Hsplit & Hx & Hpre).
        exists pre, uci, c, post. split; [exact Hsplit|]. split.
        -- intros kc Hkc. apply mem_not_In. now apply Hpre.
        -- split; [now apply mem_In|reflexivity].
      * right. split; [exact Hmem|]. split; [|reflexivity].
        intros k Hk. apply mem_not_In.
        assert (Hk' : In k (keys (sorted_desc moves))).
        { eapply Permutation_in; [|exact Hk]. symmetry. apply keys_perm.
          apply sorted_desc_perm. }
        unfold keys in Hk'. apply in_map_iff in Hk'.
        destruct Hk' as (kc & <- & Hin). exact (find_none _ _ Hfind kc Hin).
  - left. destruct (weighted_choice_raises _ _ _ Hwc) as [-> Hsum]. auto.
Qed.

End ServiceCases.

Section ServiceGuarantees.
Import MoveService.

Lemma ratio_in_unit_interval a b :
  0 <= a <= b -> 0 < b -> (0 <= inject_Z a / inject_Z b <= 1)%Q.
Proof.
  intros Ha Hb. destruct b as [|p|p]; try lia.
  unfold Qdiv, Qmult, Qinv, Qle, inject_Z. simpl. split; lia.
Qed.

Lemma descending_tail_bounded pre x post :
  descending (pre ++ x :: post) -> forall y, In y post -> snd y <= snd x.
Proof.
  intros Hd.
  assert (Htrans : RelationClasses.Transitive count_ge).
  { intros a b c Hab Hbc. unfold count_ge in *. lia. }
  apply (Sorted_StronglySorted Htrans) in Hd.
  induction pre as [|p pre IH]; simpl in Hd.
  - apply StronglySorted_inv in Hd. destruct Hd as [_ Hall].
    rewrite Forall_forall in Hall. exact Hall.
  - apply StronglySorted_inv in Hd. destruct Hd as [Hd _]. now apply IH.
Qed.

End ServiceGuarantees.

(** X2: a move the service returns is always a legal move of the parsed
    position and a key of the book entry of that position, and it comes
    with the reason [opening_book]; the book can never make the service
    answer with a move the chess library does not list as legal. *)
Theorem returned_move_is_legal_and_recorded :
  forall chess_Board positions meta req r resp m,
    MoveService.get_move chess_Board positions meta req r = Ok resp ->
    MoveService.move resp = Some m ->
    MoveService.source resp = "opening_book" /\
    exists board entry moves,
      chess_Board (MoveService.fen req) = Some board /\
      dict_get positions (MoveService.normalize_fen (MoveService.board_fen board))
        = Some entry /\
      MoveService.e_moves entry = Some moves /\
      In m (keys moves) /\ In m (MoveService.legal_moves board).
Proof.
  intros cb positions meta req r resp m Hres Hm.
  pose proof (get_move_outcome cb positions meta req r) as Hout. cbv zeta in Hout.
  rewrite Hres in Hout. unfold MoveService.reject in Hout.
  destruct Hout as [[_ E]|(board & Hb & Hout)];
    [injection E as ->; discriminate|].
  destruct Hout as [E|[E|(entry & total & moves & He & Hmv & _ & _ & _ & Hout)]];
    try (injection E as ->; discriminate).
  destruct Hout as [E|[E|[E|[[_ E]|(chosen & Hwc & Hout)]]]];
    try (injection E as ->; discriminate); try discriminate.
  destruct Hout as [[Hleg E]|[(_ & pre & uci & c & post & Hsplit & _ & Hleg & E)|(_ & _ & E)]];
    injection E as ->; simpl in *; try discriminate; injection Hm as <-.
  - split; [reflexivity|]. exists board, entry, moves. repeat split; auto.
    now apply (weighted_choice_ok_key moves r).
  - split; [reflexivity|]. exists board, entry, moves. repeat split; auto.
    eapply Permutation_in; [apply keys_perm, sorted_desc_perm|].
    rewrite Hsplit. unfold keys. rewrite map_app. apply in_or_app. right. now left.
Qed.

Lemma returned_move_is_legal_and_recorded_instance :
  MoveService.source
    {| MoveService.move := Some "d2d4"; MoveService.source := "opening_book";
       MoveService.confidence := (inject_Z 9 / inject_Z 22)%Q |} = "opening_book"
  /\ exists board entry moves,
       Sample.only_start (MoveService.fen (Sample.req 0)) = Some board /\
       dict_get (Sample.book [("a2a3", 9); ("h2h3", 7); ("d2d4", 3); ("e2e4", 3)] 22)
         (MoveService.normalize_fen (MoveService.board_fen board)) = Some entry /\
       MoveService.e_moves entry = Some moves /\
       In "d2d4" (keys moves) /\ In "d2d4" (MoveService.legal_moves board).
Proof.
  apply (returned_move_is_legal_and_recorded Sample.only_start
           (Sample.book [("a2a3", 9); ("h2h3", 7); ("d2d4", 3); ("e2e4", 3)] 22)
           {| MoveService.m_min_position_count := None;
              MoveService.m_min_top_move_ratio := Some (1 # 4);
              MoveService.m_max_ply_cap := None |}
           (Sample.req 0) 1); reflexivity.
Defined.

(** X3: in every response the move and the reason agree: the move is
    null exactly when the reason is not [opening_book], the reason is one
    of the eight codes the service writes, and the four rejections made
    before the top ratio is computed carry confidence 0.0. *)
Theorem response_move_and_reason_agree :
  forall chess_Board positions meta req r resp,
    MoveService.get_move chess_Board positions meta req r = Ok resp ->
    (MoveService.move resp = None /\
     In (MoveService.source resp)
        ["invalid_fen"; "no_book_hit"; "empty_entry"; "ply_cap";
         "below_min_count"; "low_confidence"; "no_legal_book_move"] /\
     (In (MoveService.source resp)
         ["invalid_fen"; "no_book_hit"; "empty_entry"; "ply_cap"] ->
      MoveService.confidence resp = 0%Q))
    \/ (exists m, MoveService.move resp = Some m /\
                  MoveService.source resp = "opening_book").
Proof.
  intros cb positions meta req r resp Hres.
  pose proof (get_move_outcome cb positions meta req r) as Hout. cbv zeta in Hout.
  rewrite Hres in Hout. unfold MoveService.reject in Hout.
  assert (Hearly : forall reason,
            In reason ["invalid_fen"; "no_book_hit"; "empty_entry"; "ply_cap"] ->
            Ok resp = Ok {| MoveService.move := None; MoveService.source := reason;
                            MoveService.confidence := 0 |} ->
            MoveService.move resp = None /\
            In (MoveService.source resp)
               ["invalid_fen"; "no_book_hit"; "empty_entry"; "ply_cap";
                "below_min_count"; "low_confidence"; "no_legal_book_move"] /\
            (In (MoveService.source resp)
                ["invalid_fen"; "no_book_hit"; "empty_entry"; "ply_cap"] ->
             MoveService.confidence resp = 0%Q)).
  { intros reason Hin [= ->]. simpl. split; [reflexivity|]. split; [|reflexivity].
    simpl in *. intuition auto. }
  assert (Hlate : forall reason q,
            In reason ["below_min_count"; "low_confidence"; "no_legal_book_move"] ->
            Ok resp = Ok {| MoveService.move := None; MoveService.source := reason;
                            MoveService.confidence := q |} ->
            MoveService.move resp = None /\
            In (MoveService.source resp)
               ["invalid_fen"; "no_book_hit"; "empty_entry"; "ply_cap";
                "below_min_count"; "low_confidence"; "no_legal_book_move"] /\
            (In (MoveService.source resp)
                ["invalid_fen"; "no_book_hit"; "empty_entry"; "ply_cap"] ->
             MoveService.confidence resp = 0%Q)).
  { intros reason q Hin [= ->]. cbn [MoveService.move MoveService.source].
    split; [reflexivity|]. split.
    - simpl in *. intuition auto 10.
    - intros Hearly'. exfalso. simpl in Hin, Hearly'.
      destruct Hin as [<-|[<-|[<-|[]]]];
        destruct Hearly' as [E|[E|[E|[E|[]]]]]; discriminate E. }
  destruct Hout as [[_ E]|(board & Hb & Hout)].
  { left. apply (Hearly "invalid_fen"); simpl; auto. }
  destruct Hout as [E|[E|(entry & total & moves & _ & _ & _ & _ & _ & Hout)]].
  { left. apply (Hearly "no_book_hit"); simpl; auto. }
  { left. apply (Hearly "empty_entry"); simpl; auto. }
  destruct Hout as [E|[E|[E|[[_ E]|(chosen & _ & Hout)]]]]; try discriminate.
  { left. apply (Hearly "ply_cap"); simpl; auto. }
  { left. eapply (Hlate "below_min_count"); [simpl; auto|exact E]. }
  { left. eapply (Hlate "low_confidence"); [simpl; auto|exact E]. }
  destruct Hout as [[_ E]|[(_ & pre & uci & c & post & _ & _ & _ & E)|(_ & _ & E)]].
  - right. injection E as ->. eexists. split; reflexivity.
  - right. injection E as ->. eexists. split; reflexivity.
  - left. eapply (Hlate "no_legal_book_move"); [simpl; auto|exact E].
Qed.

Lemma response_move_and_reason_agree_instance :
  (MoveService.move
     {| MoveService.move := None; MoveService.source := "low_confidence";
        MoveService.confidence := (inject_Z 5 / inject_Z 10)%Q |} = None /\
   In (MoveService.source
         {| MoveService.move := None; MoveService.source := "low_confidence";
            MoveService.confidence := (inject_Z 5 / inject_Z 10)%Q |})
      ["invalid_fen"; "no_book_hit"; "empty_entry"; "ply_cap";
       "below_min_count"; "low_confidence"; "no_legal_book_move"] /\
   (In (MoveService.source
          {| MoveService.move := None; MoveService.source := "low_confidence";
             MoveService.confidence := (inject_Z 5 / inject_Z 10)%Q |})
       ["invalid_fen"; "no_book_hit"; "empty_entry"; "ply_cap"] ->
    MoveService.confidence
      {| MoveService.move := None; MoveService.source := "low_confidence";
         MoveService.confidence := (inject_Z 5 / inject_Z 10)%Q |} = 0%Q))
  \/ (exists m,
        MoveService.move
          {| MoveService.move := None; MoveService.source := "low_confidence";
             MoveService.confidence := (inject_Z 5 / inject_Z 10)%Q |} = Some m /\
        MoveService.source
          {| MoveService.move := None; MoveService.source := "low_confidence";
             MoveService.confidence := (inject_Z 5 / inject_Z 10)%Q |} = "opening_book").
Proof.
  apply (response_move_and_reason_agree Sample.only_start
           (Sample.book [("e2e4", 5); ("d2d4", 5)] 10) Sample.no_meta (Sample.req 0) 1).
  reflexivity.
Defined.



(** X5: when the drawn move is not legal, the move accepted instead is a
    legal move of greatest recorded count: no legal move of the entry was
    played more often. *)
Theorem fallback_returns_most_frequent_legal_move :
  forall chess_Board positions meta req r board entry moves chosen resp m,
    chess_Board (MoveService.fen req) = Some board ->
    dict_get positions (MoveService.normalize_fen (MoveService.board_fen board))
      = Some entry ->
    MoveService.e_moves entry = Some moves ->
    MoveService.weighted_choice moves r = Ok chosen ->
    ~ In chosen (MoveService.legal_moves board) ->
    MoveService.get_move chess_Board positions meta req r = Ok resp ->
    MoveService.move resp = Some m ->
    exists c,
      In (m, c) moves /\ In m (MoveService.legal_moves board) /\
      forall k c', In (k, c') moves -> In k (MoveService.legal_moves board) -> c' <= c.
Proof.
  intros cb positions meta req r board entry moves chosen resp m
    Hb He Hmv Hwc Hill Hres Hm.
  pose proof (get_move_outcome cb positions meta req r) as Hout. cbv zeta in Hout.
  rewrite Hres in Hout. unfold MoveService.reject in Hout.
  destruct Hout as [[Hnone _]|(board' & Hb' & Hout)]; [congruence|].
  assert (board' = board) by congruence. subst board'.
  destruct Hout as [E|[E|(entry' & total & moves' & He' & Hmv' & _ & _ & _ & Hout)]];
    try (injection E as ->; discriminate).
  assert (entry' = entry) by congruence. subst entry'.
  assert (moves' = moves) by congruence. subst moves'.
  destruct Hout as [E|[E|[E|[[_ E]|(chosen' & Hwc' & Hout)]]]];
    try (injection E as ->; discriminate); try discriminate.
  assert (chosen' = chosen) by congruence. subst chosen'.
  destruct Hout as [[Hleg _]|[(_ & pre & uci & c & post & Hsplit & Hpre & Hleg & E)|(_ & _ & E)]];
    [contradiction| |injection E as ->; discriminate].
  injection E as ->. simpl in Hm. injection Hm as <-.
  pose proof (sorted_desc_perm moves) as Hperm.
  exists c. split; [|split; [exact Hleg|]].
  - eapply Permutation_in; [exact Hperm|]. rewrite Hsplit.
    apply in_or_app. right. now left.
  - intros k c' Hin Hk.
    assert (Hin' : In (k, c') (sorted_desc moves))
      by (eapply Permutation_in; [symmetry; exact Hperm|exact Hin]).
    rewrite Hsplit in Hin'. apply in_app_or in Hin'.
    destruct Hin' as [Hp|[[= <- <-]|Hp]].
    + exfalso. exact (Hpre _ Hp Hk).
    + lia.
    + pose proof (sorted_desc_descending moves) as Hd. rewrite Hsplit in Hd.
      exact (descending_tail_bounded pre (uci, c) post Hd (k, c') Hp).
Qed.

Lemma fallback_returns_most_frequent_legal_move_instance :
  exists c,
    In ("d2d4", c) [("a2a3", 9); ("e2e4", 2); ("d2d4", 3)] /\
    In "d2d4" (MoveService.legal_moves Sample.start_board) /\
    forall k c', In (k, c') [("a2a3", 9); ("e2e4", 2); ("d2d4", 3)] ->
                 In k (MoveService.legal_moves Sample.start_board) -> c' <= c.
Proof.
  apply (fallback_returns_most_frequent_legal_move Sample.only_start
           (Sample.book [("a2a3", 9); ("e2e4", 2); ("d2d4", 3)] 14)
           {| MoveService.m_min_position_count := None;
              MoveService.m_min_top_move_ratio := Some (1 # 4);
              MoveService.m_max_ply_cap := None |}
           (Sample.req 0) 1 Sample.start_board
           {| MoveService.e_total := Some 14;
              MoveService.e_moves := Some [("a2a3", 9); ("e2e4", 2); ("d2d4", 3)] |}
           [("a2a3", 9); ("e2e4", 2); ("d2d4", 3)] "a2a3"
           {| MoveService.move := Some "d2d4"; MoveService.source := "opening_book";
              MoveService.confidence := (inject_Z 9 / inject_Z 14)%Q |});
    try reflexivity.
  simpl. intuition discriminate.
Defined.

(** X6: on a book whose entries have non-negative counts and a total at
    least their greatest count, every response carries a confidence
    between 0 and 1. *)
Theorem confidence_lies_in_unit_interval :
  forall chess_Board positions meta req r resp,
    (forall key entry moves,
        dict_get positions key = Some entry ->
        MoveService.e_moves entry = Some moves ->
        nonneg moves /\
        MoveService.max_values (values moves)
          <= MoveService.get_default (MoveService.e_total entry) 0) ->
    MoveService.get_move chess_Board positions meta req r = Ok resp ->
    (0 <= MoveService.confidence resp <= 1)%Q.
Proof.
  intros cb positions meta req r resp Hbook Hres.
  pose proof (get_move_outcome cb positions meta req r) as Hout. cbv zeta in Hout.
  rewrite Hres in Hout. unfold MoveService.reject in Hout.
  assert (Hzero : (0 <= 0 <= 1)%Q) by (split; discriminate).
  destruct Hout as [[_ E]|(board & Hb & Hout)]; [injection E as ->; exact Hzero|].
  destruct Hout as [E|[E|(entry & total & moves & He & Hmv & -> & Hne & Hpos & Hout)]];
    try (injection E as ->; exact Hzero).
  destruct (Hbook _ _ _ He Hmv) as [Hnn Hmax].
  assert (Hv : values moves <> []) by (destruct moves; [congruence|discriminate]).
  destruct (max_values_greatest _ Hv) as [Hin _].
  assert (Htop : 0 <= MoveService.max_values (values moves)).
  { apply in_map_iff in Hin. destruct Hin as (kc & Ekc & Hkc). rewrite <- Ekc.
    unfold nonneg in Hnn. rewrite Forall_forall in Hnn. now apply Hnn. }
  pose proof (ratio_in_unit_interval _ _ (conj Htop Hmax) Hpos) as Hratio.
  destruct Hout as [E|[E|[E|[[_ E]|(chosen & _ & Hout)]]]];
    try (injection E as ->; first [exact Hzero|exact Hratio]); try discriminate.
  destruct Hout as [[_ E]|[(_ & pre & uci & c & post & _ & _ & _ & E)|(_ & _ & E)]];
    injection E as ->; exact Hratio.
Qed.

Lemma confidence_lies_in_unit_interval_instance :
  (0 <= MoveService.confidence
          {| MoveService.move := Some "e2e4"; MoveService.source := "opening_book";
             MoveService.confidence := (inject_Z 8 / inject_Z 8)%Q |} <= 1)%Q.
Proof.
  apply (confidence_lies_in_unit_interval Sample.only_start
           (Sample.book [("e2e4", 8)] 8) Sample.no_meta (Sample.req 0) 3).
  - intros key entry moves Hget Hmv. unfold Sample.book in Hget.
    cbn [dict_get] in Hget.
    destruct (String.eqb Sample.start_key key); [|discriminate].
    injection Hget as <-. simpl in Hmv. injection Hmv as <-.
    split; [repeat constructor; simpl; lia|simpl; lia].
  - reflexivity.
Defined.

(* ------------------------------------------------------------------ *)
(** ** The book builders: what is counted *)
(* ------------------------------------------------------------------ *)

Section BuilderCounts.

Lemma incr2_get d k u k' :
  dict_get (incr2 d k u) k' =
    if String.eqb k k'
    then Some (incr (match dict_get d k with Some m => m | None => [] end) u)
    else dict_get d k'.
Proof.
  induction d as [|[k0 m] d IH]; simpl.
  - destruct (String.eqb k k'); reflexivity.
  - destruct (String.eqb k0 k) eqn:E0; simpl.
    + apply String.eqb_eq in E0. subst k0.
      destruct (String.eqb k k'); reflexivity.
    + rewrite IH. destruct (String.eqb k k') eqn:E; [|reflexivity].
      apply String.eqb_eq in E. subst k'. now rewrite E0.
Qed.

Lemma count_at_count_move st k u k' u' :
  count_at (move_counts (count_move st k u)) k' u'
  = count_at (move_counts st) k' u'
    + (if String.eqb k k' && String.eqb u u' then 1 else 0).
Proof.
  unfold count_at, count_move. cbn [move_counts]. rewrite incr2_get.
  destruct (String.eqb k k') eqn:Ek; cbn [andb]; [|lia].
  apply String.eqb_eq in Ek. subst k'. rewrite incr_get.
  destruct (dict_get (move_counts st) k) as [m|]; cbn [dict_get];
    destruct (String.eqb u u') eqn:Eu; try lia.
  apply String.eqb_eq in Eu. subst u'. reflexivity.
Qed.

Lemma total_at_count_move st k u k' :
  total_at (total_positions (count_move st k u)) k'
  = total_at (total_positions st) k' + (if String.eqb k k' then 1 else 0).
Proof.
  unfold total_at, count_move. cbn [total_positions]. rewrite incr_get.
  destruct (String.eqb k k') eqn:Ek; [|lia].
  apply String.eqb_eq in Ek. now subst k'.
Qed.

Lemma occurrences_cons p hm hms :
  occurrences p (hm :: hms) = (if p hm then 1 else 0) + occurrences p hms.
Proof.
  unfold occurrences. cbn [filter]. destruct (p hm); cbn [List.length]; lia.
Qed.

Lemma occurrences_app p l1 l2 :
  occurrences p (l1 ++ l2) = occurrences p l1 + occurrences p l2.
Proof. unfold occurrences. rewrite filter_app, length_app. lia. Qed.

(** Counting a list of half-moves adds their occurrences. *)
Lemma fold_count_half_moves hms : forall st k u,
  count_at (move_counts (fold_left count_half_move hms st)) k u
  = count_at (move_counts st) k u + occurrences (plays k u) hms
  /\ total_at (total_positions (fold_left count_half_move hms st)) k
     = total_at (total_positions st) k + occurrences (from_key k) hms.
Proof.
  induction hms as [|hm hms IH]; intros st k u.
  - unfold occurrences. simpl. lia.
  - cbn [fold_left]. destruct (IH (count_half_move st hm) k u) as [-> ->].
    unfold count_half_move. rewrite count_at_count_move, total_at_count_move.
    rewrite !occurrences_cons. unfold plays, from_key. split; lia.
Qed.

Lemma plain_replay_fold cap moves : forall ply st,
  BookBuilder.replay cap moves ply st
  = fold_left count_half_move (firstn (Z.to_nat (cap - ply)) moves) st.
Proof.
  induction moves as [|mv moves IH]; intros ply st.
  - now rewrite firstn_nil.
  - cbn [BookBuilder.replay]. destruct (ply >=? cap) eqn:E.
    + apply Z.geb_le in E. replace (Z.to_nat (cap - ply)) with 0%nat by lia.
      reflexivity.
    + rewrite Z.geb_leb in E. apply Z.leb_gt in E.
      replace (Z.to_nat (cap - ply)) with (S (Z.to_nat (cap - (ply + 1)))) by lia.
      cbn [firstn fold_left]. rewrite IH. reflexivity.
Qed.

Lemma turnonly_replay_fold white cap moves : forall ply st,
  BookBuilderTurnOnly.replay white cap moves ply st
  = fold_left count_half_move
      (filter (on_move white) (firstn (Z.to_nat (cap - ply)) moves)) st.
Proof.
  induction moves as [|mv moves IH]; intros ply st.
  - now rewrite firstn_nil.
  - cbn [BookBuilderTurnOnly.replay]. destruct (ply >=? cap) eqn:E.
    + apply Z.geb_le in E. replace (Z.to_nat (cap - ply)) with 0%nat by lia.
      reflexivity.
    + rewrite Z.geb_leb in E. apply Z.leb_gt in E.
      replace (Z.to_nat (cap - ply)) with (S (Z.to_nat (cap - (ply + 1)))) by lia.
      cbn [firstn filter]. rewrite IH. unfold on_move at 2.
      destruct (hm_white_to_move mv), white; reflexivity.
Qed.

Lemma plain_process_fold cap st g :
  BookBuilder.process_game cap st g
  = fold_left count_half_move (opening_of cap g) st.
Proof.
  unfold BookBuilder.process_game, opening_of, unreadable.
  destruct (negb (PyStr.truthy (PyStr.strip (pgn g)))); [reflexivity|].
  destruct (pgn_to_game g) as [game|]; [|reflexivity].
  cbn [orb]. rewrite plain_replay_fold. now rewrite Z.sub_0_r.
Qed.

Lemma turnonly_process_fold player cap p g :
  BookBuilderTurnOnly.counters (BookBuilderTurnOnly.process_game player cap p g)
  = fold_left count_half_move (player_opening_of player cap g)
      (BookBuilderTurnOnly.counters p).
Proof.
  unfold BookBuilderTurnOnly.process_game, player_opening_of, plays_in, unreadable.
  destruct (negb (PyStr.truthy (PyStr.strip (pgn g)))); [reflexivity|].
  destruct (pgn_to_game g) as [game|]; [|reflexivity].
  cbn [orb negb andb].
  destruct (String.eqb (headers_White game) player),
           (String.eqb (headers_Black game) player);
    cbn [negb andb orb BookBuilderTurnOnly.counters];
    try reflexivity;
    rewrite turnonly_replay_fold; now rewrite Z.sub_0_r.
Qed.

Lemma plain_aggregate_fold cap games : forall st,
  fold_left (BookBuilder.process_game cap) games st
  = fold_left count_half_move (flat_map (opening_of cap) games) st.
Proof.
  induction games as [|g games IH]; intros st; [reflexivity|].
  cbn [fold_left flat_map]. rewrite fold_left_app, IH. now rewrite plain_process_fold.
Qed.

Lemma turnonly_aggregate_fold player cap games : forall p,
  BookBuilderTurnOnly.counters
    (fold_left (BookBuilderTurnOnly.process_game player cap) games p)
  = fold_left count_half_move (flat_map (player_opening_of player cap) games)
      (BookBuilderTurnOnly.counters p).
Proof.
  induction games as [|g games IH]; intros p; [reflexivity|].
  cbn [fold_left flat_map]. rewrite fold_left_app, IH.
  now rewrite turnonly_process_fold.
Qed.

Lemma plain_counts games cap k u :
  count_at (move_counts (BookBuilder.aggregate games cap)) k u
  = occurrences (plays k u) (flat_map (opening_of cap) games)
  /\ total_at (total_positions (BookBuilder.aggregate games cap)) k
     = occurrences (from_key k) (flat_map (opening_of cap) games).
Proof.
  unfold BookBuilder.aggregate. rewrite plain_aggregate_fold.
  destruct (fold_count_half_moves (flat_map (opening_of cap) games) no_counts k u)
    as [-> ->].
  unfold count_at, total_at, no_counts. simpl. split; lia.
Qed.

Lemma turnonly_counts games player cap k u :
  count_at (move_counts (BookBuilderTurnOnly.counters
                           (BookBuilderTurnOnly.aggregate games player cap))) k u
  = occurrences (plays k u) (flat_map (player_opening_of player cap) games)
  /\ total_at (total_positions (BookBuilderTurnOnly.counters
                                  (BookBuilderTurnOnly.aggregate games player cap))) k
     = occurrences (from_key k) (flat_map (player_opening_of player cap) games).
Proof.
  unfold BookBuilderTurnOnly.aggregate. rewrite turnonly_aggregate_fold.
  cbn [BookBuilderTurnOnly.counters].
  destruct (fold_count_half_moves (flat_map (player_opening_of player cap) games)
              no_counts k u) as [-> ->].
  unfold count_at, total_at, no_counts. simpl. split; lia.
Qed.

Lemma filter_length_le {A} (p : A -> bool) l :
  (List.length (filter p l) <= List.length l)%nat.
Proof.
  induction l as [|x l IH]; simpl; [lia|]. destruct (p x); simpl; lia.
Qed.

Lemma occurrences_filter_le p q hms :
  occurrences p (filter q hms) <= occurrences p hms.
Proof.
  unfold occurrences. apply Nat2Z.inj_le.
  induction hms as [|hm hms IH]; cbn [filter]; [lia|].
  destruct (q hm); cbn [filter]; destruct (p hm); cbn [List.length]; lia.
Qed.

Lemma occurrences_nonneg p hms : 0 <= occurrences p hms.
Proof. unfold occurrences. lia. Qed.

Lemma player_opening_le p player cap g :
  occurrences p (player_opening_of player cap g) <= occurrences p (opening_of cap g).
Proof.
  unfold player_opening_of, opening_of, plays_in.
  destruct (unreadable g); cbn [negb andb]; [lia|].
  destruct (pgn_to_game g) as [game|]; [|lia].
  destruct (_ || _); [apply occurrences_filter_le|apply occurrences_nonneg].
Qed.

Lemma player_openings_le p player cap games :
  occurrences p (flat_map (player_opening_of player cap) games)
  <= occurrences p (flat_map (opening_of cap) games).
Proof.
  induction games as [|g games IH]; cbn [flat_map]; [lia|].
  rewrite !occurrences_app. pose proof (player_opening_le p player cap g). lia.
Qed.

End BuilderCounts.

(** X7: the plain builder counts occurrences.  For every position key
    and move, the count it holds is the number of half-moves, among those
    below the ply cap of every readable game, that play this move from a
    position with this key; the total it holds for a key is the number of
    such half-moves made from that key.  Nothing is counted twice and
    nothing below the cap is lost. *)
Theorem plain_builder_counts_occurrences :
  forall (games : list GameRecord) (max_ply_cap : Z) (k u : string),
    count_at (move_counts (BookBuilder.aggregate games max_ply_cap)) k u
    = occurrences (plays k u) (flat_map (opening_of max_ply_cap) games)
    /\ total_at (total_positions (BookBuilder.aggregate games max_ply_cap)) k
       = occurrences (from_key k) (flat_map (opening_of max_ply_cap) games).
Proof. intros. apply plain_counts. Qed.

(** X8: the turn-only builder counts the player's moves only.  Its count
    for a key and a move is the number of half-moves, below the ply cap of
    the readable games in which the player has the white or the black
    pieces, in which the player is to move and plays this move from a
    position with this key. *)
Theorem turnonly_builder_counts_player_moves :
  forall (games : list GameRecord) (player : string) (max_ply_cap : Z) (k u : string),
    count_at (move_counts (BookBuilderTurnOnly.counters
                (BookBuilderTurnOnly.aggregate games player max_ply_cap))) k u
    = occurrences (plays k u) (flat_map (player_opening_of player max_ply_cap) games)
    /\ total_at (total_positions (BookBuilderTurnOnly.counters
                   (BookBuilderTurnOnly.aggregate games player max_ply_cap))) k
       = occurrences (from_key k) (flat_map (player_opening_of player max_ply_cap) games).
Proof. intros. apply turnonly_counts. Qed.

(** X9: on the same games and ply cap the turn-only book is contained in
    the plain book: for every key and move its count, and for every key
    its total, is at most that of the plain builder, and never negative. *)
Theorem turnonly_counts_at_most_plain_counts :
  forall (games : list GameRecord) (player : string) (max_ply_cap : Z) (k u : string),
    0 <= count_at (move_counts (BookBuilderTurnOnly.counters
                     (BookBuilderTurnOnly.aggregate games player max_ply_cap))) k u
      <= count_at (move_counts (BookBuilder.aggregate games max_ply_cap)) k u
    /\ 0 <= total_at (total_positions (BookBuilderTurnOnly.counters
                        (BookBuilderTurnOnly.aggregate games player max_ply_cap))) k
         <= total_at (total_positions (BookBuilder.aggregate games max_ply_cap)) k.
Proof.
  intros games player cap k u.
  destruct (plain_counts games cap k u) as [-> ->].
  destruct (turnonly_counts games player cap k u) as [-> ->].
  pose proof (player_openings_le (plays k u) player cap games).
  pose proof (player_openings_le (from_key k) player cap games).
  pose proof (occurrences_nonneg (plays k u)
                (flat_map (player_opening_of player cap) games)).
  pose proof (occurrences_nonneg (from_key k)
                (flat_map (player_opening_of player cap) games)).
  lia.
Qed.

Example counts_of_one_game :
  count_at (move_counts (BookBuilder.aggregate [Sample.game_e4_e5] 20))
    "rnbqkbnr/pppppppp/8/8/4P3/8/PPPP1PPP/RNBQKBNR b KQkq -" "e7e5" = 1
  /\ count_at (move_counts (BookBuilderTurnOnly.counters
                 (BookBuilderTurnOnly.aggregate [Sample.game_e4_e5] "capo298" 20)))
       "rnbqkbnr/pppppppp/8/8/4P3/8/PPPP1PPP/RNBQKBNR b KQkq -" "e7e5" = 0.
Proof. split; reflexivity. Qed.

(* ------------------------------------------------------------------ *)
(** ** The book builders: the mappings they emit *)
(* ------------------------------------------------------------------ *)

Section BuilderMappings.

Lemma incr_keys m u :
  keys (incr m u) = if MoveService.mem u (keys m) then keys m else keys m ++ [u].
Proof.
  unfold MoveService.mem. induction m as [|[k v] m IH]; simpl; [reflexivity|].
  rewrite (String.eqb_sym u k). destruct (String.eqb k u) eqn:E; simpl; [reflexivity|].
  rewrite IH. now destruct (existsb (String.eqb u) (keys m)).
Qed.

Lemma NoDup_snoc {A} (l : list A) x : NoDup l -> ~ In x l -> NoDup (l ++ [x]).
Proof.
  intros Hl Hx. apply NoDup_app; [assumption|repeat constructor; intros []|].
  intros y Hy [<-|[]]. contradiction.
Qed.

Lemma incr_keys_distinct m u : NoDup (keys m) -> NoDup (keys (incr m u)).
Proof.
  intros H. rewrite incr_keys. destruct (MoveService.mem u (keys m)) eqn:E;
    [assumption|]. apply NoDup_snoc; [assumption|now apply mem_not_In].
Qed.

Lemma mappings_ok_empty : mappings_ok no_counts.
Proof. split; simpl; intros; contradiction. Qed.

Lemma count_half_move_ok st hm :
  counters_ok st /\ mappings_ok st ->
  counters_ok (count_half_move st hm) /\ mappings_ok (count_half_move st hm).
Proof.
  intros [Hc [Hinner Hcanon]]. split; [now apply count_move_ok|].
  unfold count_half_move, count_move, mappings_ok. cbn [move_counts].
  destruct Hc as (Hnd & _ & _). split.
  - intros k m Hin.
    destruct (incr2_In _ _ _ _ _ Hnd Hin) as [[_ H]|[-> [(m0 & H & ->)|[_ ->]]]].
    + eapply Hinner. eassumption.
    + apply incr_keys_distinct. eapply Hinner. eassumption.
    + simpl. repeat constructor. intros [].
  - intros k Hk. rewrite incr2_keys in Hk.
    destruct (MoveService.mem _ (keys (move_counts st))); [now apply Hcanon|].
    apply in_app_or in Hk. destruct Hk as [Hk|[<-|[]]]; [now apply Hcanon|].
    apply normalize_fen_idempotent.
Qed.

Lemma fold_count_half_moves_ok hms : forall st,
  counters_ok st /\ mappings_ok st ->
  counters_ok (fold_left count_half_move hms st) /\
  mappings_ok (fold_left count_half_move hms st).
Proof.
  induction hms as [|hm hms IH]; intros st Hst; [exact Hst|].
  cbn [fold_left]. apply IH. now apply count_half_move_ok.
Qed.

Lemma plain_aggregate_all_ok games cap :
  counters_ok (BookBuilder.aggregate games cap) /\
  mappings_ok (BookBuilder.aggregate games cap).
Proof.
  unfold BookBuilder.aggregate. rewrite plain_aggregate_fold.
  apply fold_count_half_moves_ok. split; [apply counters_ok_empty|apply mappings_ok_empty].
Qed.

Lemma turnonly_aggregate_all_ok games player cap :
  counters_ok (BookBuilderTurnOnly.counters
                 (BookBuilderTurnOnly.aggregate games player cap)) /\
  mappings_ok (BookBuilderTurnOnly.counters
                 (BookBuilderTurnOnly.aggregate games player cap)).
Proof.
  unfold BookBuilderTurnOnly.aggregate. rewrite turnonly_aggregate_fold.
  apply fold_count_half_moves_ok. split; [apply counters_ok_empty|apply mappings_ok_empty].
Qed.

Lemma positions_out_keys st : keys (positions_out st) = keys (move_counts st).
Proof.
  unfold positions_out, keys. rewrite map_map. apply map_ext. now intros [k m].
Qed.

(** What the move service finds in an entry written from agreeing
    counters. *)
Lemma emitted_entry_serves st key total moves :
  counters_ok st -> mappings_ok st ->
  In (key, (total, moves)) (positions_out st) ->
  descending moves /\ sorted_desc moves = MoveService.items moves /\
  NoDup (keys moves) /\ 1 <= total /\
  forall r, 1 <= r <= total ->
    exists uci, MoveService.weighted_choice moves r = Ok uci /\
                Design.weighted_choice total moves r = Some uci.
Proof.
  intros Hc [Hinner _] Hin.
  destruct (positions_out_ok _ _ _ _ Hc Hin) as [(Hne & Hsum & Hbound & _) Hdesc].
  split; [exact Hdesc|]. split; [now apply sorted_desc_fixed_iff|].
  assert (Hnd : NoDup (keys moves)).
  { unfold positions_out in Hin. apply in_map_iff in Hin.
    destruct Hin as ([k m] & [= _ _ <-] & Hm).
    eapply Permutation_NoDup; [symmetry; apply keys_perm, sorted_desc_perm|].
    eapply Hinner. eassumption. }
  split; [exact Hnd|].
  assert (Hpos : 1 <= total).
  { destruct moves as [|[k c] rest]; [congruence|].
    specialize (Hbound c (or_introl eq_refl)). lia. }
  split; [exact Hpos|].
  intros r Hr. rewrite Hsum in Hr.
  destruct (weighted_choice_walk moves r Hr) as (uci & Hw & Hwc).
  exists uci. split; [exact Hwc|].
  unfold Design.weighted_choice. rewrite (descending_fixed _ Hdesc).
  replace ((1 <=? r) && (r <=? total)) with true; [exact Hw|].
  symmetry. apply andb_true_intro. split; apply Z.leb_le; lia.
Qed.

End BuilderMappings.

(** X10: the books the builders write suit the move service.  In every
    entry emitted by either builder the moves are stored by descending
    count with distinct keys, the order the draw walks is the order the
    fallback rescans, the total is at least one, and for every draw in
    [[1, total]] the service's [weighted_choice] returns the move that the
    count-descending walk over the recorded total selects; it never
    raises on such an entry. *)
Theorem emitted_entries_suit_the_move_service :
  forall (games : list GameRecord) (player : string) (max_ply_cap : Z)
         (key : string) (total : Z) (moves : dict Z),
    In (key, (total, moves))
       (positions_out (BookBuilder.aggregate games max_ply_cap)) \/
    In (key, (total, moves))
       (positions_out (BookBuilderTurnOnly.counters
          (BookBuilderTurnOnly.aggregate games player max_ply_cap))) ->
    descending moves /\ sorted_desc moves = MoveService.items moves /\
    NoDup (keys moves) /\ 1 <= total /\
    forall r, 1 <= r <= total ->
      exists uci, MoveService.weighted_choice moves r = Ok uci /\
                  Design.weighted_choice total moves r = Some uci.
Proof.
  intros games player cap key total moves [Hin|Hin].
  - destruct (plain_aggregate_all_ok games cap) as [Hc Hm].
    exact (emitted_entry_serves _ _ _ _ Hc Hm Hin).
  - destruct (turnonly_aggregate_all_ok games player cap) as [Hc Hm].
    exact (emitted_entry_serves _ _ _ _ Hc Hm Hin).
Qed.

Lemma emitted_entries_suit_the_move_service_instance :
  descending [("e2e4", 1)] /\ sorted_desc [("e2e4", 1)] = MoveService.items [("e2e4", 1)] /\
  NoDup (keys [("e2e4", 1)]) /\ 1 <= 1 /\
  forall r, 1 <= r <= 1 ->
    exists uci, MoveService.weighted_choice [("e2e4", 1)] r = Ok uci /\
                Design.weighted_choice 1 [("e2e4", 1)] r = Some uci.
Proof.
  apply (emitted_entries_suit_the_move_service [Sample.game_e4_e5] "capo298" 20
           "rnbqkbnr/pppppppp/8/8/8/8/PPPPPPPP/RNBQKBNR w KQkq -" 1 [("e2e4", 1)]).
  left. left. reflexivity.
Defined.

(** X11: the position keys of a book either builder writes are distinct
    and canonical: each is left unchanged by [normalize_fen], so it is
    the key the move service computes for a board with these four fields. *)
Theorem emitted_keys_are_distinct_and_canonical :
  forall (games : list GameRecord) (player : string) (max_ply_cap : Z),
    (NoDup (keys (positions_out (BookBuilder.aggregate games max_ply_cap))) /\
     forall k, In k (keys (positions_out (BookBuilder.aggregate games max_ply_cap))) ->
               MoveService.normalize_fen k = k) /\
    (NoDup (keys (positions_out (BookBuilderTurnOnly.counters
                    (BookBuilderTurnOnly.aggregate games player max_ply_cap)))) /\
     forall k, In k (keys (positions_out (BookBuilderTurnOnly.counters
                              (BookBuilderTurnOnly.aggregate games player max_ply_cap)))) ->
               MoveService.normalize_fen k = k).
Proof.
  intros games player cap. split.
  - destruct (plain_aggregate_all_ok games cap) as [(Hnd & _) [_ Hcanon]].
    rewrite positions_out_keys. auto.
  - destruct (turnonly_aggregate_all_ok games player cap) as [(Hnd & _) [_ Hcanon]].
    rewrite positions_out_keys. auto.
Qed.

Lemma emitted_keys_are_distinct_and_canonical_instance :
  MoveService.normalize_fen "rnbqkbnr/pppppppp/8/8/4P3/8/PPPP1PPP/RNBQKBNR b KQkq -"
  = "rnbqkbnr/pppppppp/8/8/4P3/8/PPPP1PPP/RNBQKBNR b KQkq -".
Proof.
  apply (proj2 (proj1 (emitted_keys_are_distinct_and_canonical
                         [Sample.game_e4_e5] "capo298" 20))).
  right. left. reflexivity.
Defined.

Section BuilderEdges.

Lemma opening_of_no_cap cap g : cap <= 0 -> opening_of cap g = [].
Proof.
  intros H. unfold opening_of. destruct (unreadable g); [reflexivity|].
  destruct (pgn_to_game g); [|reflexivity].
  replace (Z.to_nat cap) with 0%nat by lia. reflexivity.
Qed.

Lemma player_opening_of_no_cap player cap g :
  cap <= 0 -> player_opening_of player cap g = [].
Proof.
  intros H. unfold player_opening_of. destruct (plays_in player g); [|reflexivity].
  destruct (pgn_to_game g); [|reflexivity].
  replace (Z.to_nat cap) with 0%nat by lia. reflexivity.
Qed.

Lemma flat_map_nil {A B} (f : A -> list B) l :
  (forall x, f x = []) -> flat_map f l = [].
Proof.
  intros H. induction l as [|x l IH]; simpl; [reflexivity|]. now rewrite H, IH.
Qed.

Lemma turnonly_stats_fold player cap games : forall p,
  let q := fold_left (BookBuilderTurnOnly.process_game player cap) games p in
  BookBuilderTurnOnly.skipped q
  = BookBuilderTurnOnly.skipped p + Z.of_nat (List.length (filter unreadable games))
  /\ BookBuilderTurnOnly.used q
     = BookBuilderTurnOnly.used p + Z.of_nat (List.length (filter (plays_in player) games)).
Proof.
  induction games as [|g games IH]; intros p; cbv zeta.
  - simpl. lia.
  - cbn [fold_left]. destruct (IH (BookBuilderTurnOnly.process_game player cap p g))
      as [-> ->].
    unfold BookBuilderTurnOnly.process_game, plays_in, unreadable. cbn [filter].
    destruct (negb (PyStr.truthy (PyStr.strip (pgn g)))); cbn [orb negb andb].
    + cbn [BookBuilderTurnOnly.skipped BookBuilderTurnOnly.used List.length]. lia.
    + destruct (pgn_to_game g) as [game|].
      * destruct (String.eqb (headers_White game) player),
                 (String.eqb (headers_Black game) player);
          cbn [negb andb orb BookBuilderTurnOnly.skipped BookBuilderTurnOnly.used
               List.length]; lia.
      * cbn [negb andb orb BookBuilderTurnOnly.skipped BookBuilderTurnOnly.used
             List.length]. lia.
Qed.

Lemma disjoint_filters_le {A} (p q : A -> bool) l :
  (forall x, p x = true -> q x = false) ->
  (List.length (filter p l) + List.length (filter q l) <= List.length l)%nat.
Proof.
  intros H. induction l as [|x l IH]; simpl; [lia|].
  destruct (p x) eqn:Ep.
  - rewrite (H x Ep). simpl. lia.
  - destruct (q x); simpl; lia.
Qed.

End BuilderEdges.

(** X12: a ply cap of zero or less records nothing.  Given at least one
    game, both builders still return an artifact; its ["positions"] is
    the empty object. *)
Theorem nonpositive_cap_gives_empty_book :
  forall (games : list GameRecord) (player : string)
         (max_ply_cap min_position_count : Z) (min_top_move_ratio : Q),
    max_ply_cap <= 0 -> games <> [] ->
    (exists book,
        BookBuilder.build_opening_book games max_ply_cap min_position_count
          min_top_move_ratio = Ok book /\
        json_get book "positions" = Some (JObj [])) /\
    (exists book,
        BookBuilderTurnOnly.build_opening_book games player max_ply_cap = Ok book /\
        json_get book "positions" = Some (JObj [])).
Proof.
  intros games player cap minc minr Hcap Hne.
  assert (Hplain : BookBuilder.aggregate games cap = no_counts).
  { unfold BookBuilder.aggregate. rewrite plain_aggregate_fold.
    rewrite flat_map_nil; [reflexivity|]. intros g. now apply opening_of_no_cap. }
  assert (Hturn : BookBuilderTurnOnly.counters
                    (BookBuilderTurnOnly.aggregate games player cap) = no_counts).
  { unfold BookBuilderTurnOnly.aggregate. rewrite turnonly_aggregate_fold.
    rewrite flat_map_nil; [reflexivity|].
    intros g. now apply player_opening_of_no_cap. }
  destruct games as [|g games]; [congruence|].
  unfold BookBuilder.build_opening_book, BookBuilderTurnOnly.build_opening_book.
  cbv zeta. rewrite Hplain, Hturn.
  split; eexists; (split; [reflexivity|reflexivity]).
Qed.

Lemma nonpositive_cap_gives_empty_book_instance :
  0 <= 0 /\ [Sample.game_e4_e5] <> [] /\
  exists book,
    BookBuilder.build_opening_book [Sample.game_e4_e5] 0 8 (55 # 100) = Ok book /\
    json_get book "positions" = Some (JObj []).
Proof.
  split; [lia|]. split; [discriminate|].
  apply (proj1 (nonpositive_cap_gives_empty_book [Sample.game_e4_e5] "capo298"
                  0 8 (55 # 100) ltac:(lia) ltac:(discriminate))).
Defined.

(** X13: the statistics of the turn-only builder account for the games:
    [games_skipped] is the number of records with blank text or without a
    game read, [games_used] the number of readable games in which the
    player has the white or the black pieces, and together they never
    exceed [games_seen]. *)
Theorem turnonly_stats_account_for_games :
  forall (games : list GameRecord) (player : string) (max_ply_cap : Z),
    let p := BookBuilderTurnOnly.aggregate games player max_ply_cap in
    BookBuilderTurnOnly.skipped p = Z.of_nat (List.length (filter unreadable games)) /\
    BookBuilderTurnOnly.used p
      = Z.of_nat (List.length (filter (plays_in player) games)) /\
    BookBuilderTurnOnly.used p + BookBuilderTurnOnly.skipped p <= PyStr.len games.
Proof.
  intros games player cap p. subst p. unfold BookBuilderTurnOnly.aggregate.
  destruct (turnonly_stats_fold player cap games
              {| BookBuilderTurnOnly.counters := no_counts;
                 BookBuilderTurnOnly.skipped := 0;
                 BookBuilderTurnOnly.used := 0 |}) as [Hs Hu].
  cbv zeta in Hs, Hu. rewrite Hs, Hu. cbn [BookBuilderTurnOnly.skipped BookBuilderTurnOnly.used].
  split; [lia|]. split; [lia|].
  pose proof (disjoint_filters_le unreadable (plays_in player) games) as Hle.
  unfold PyStr.len.
  assert (Hdis : forall g, unreadable g = true -> plays_in player g = false).
  { intros g Hg. unfold plays_in. now rewrite Hg. }
  specialize (Hle Hdis). lia.
Qed.

(* ------------------------------------------------------------------ *)
(** ** The engine and the relay: instances *)
(* ------------------------------------------------------------------ *)


Lemma bestmove_returns_announced_move_instance :
  exists sf',
    UciWrapper.bestmove Sample.show_250 Sample.prompt_engine
      "8/8/8/4k3/8/8/4K3/4R3 w - - 0 1" 250
    = UciWrapper.Returns "e1e2" sf'.
Proof.
  apply (bestmove_returns_announced_move Sample.show_250 Sample.prompt_engine
           "8/8/8/4k3/8/8/4K3/4R3 w - - 0 1" 250
           [ {| UciWrapper.at_ms := 40; UciWrapper.text := "info depth 1 score cp 20" |} ]
           {| UciWrapper.at_ms := 200; UciWrapper.text := "bestmove e1e2 ponder e5d5" |}
           []).
  - reflexivity.
  - repeat constructor.
  - repeat constructor. simpl. lia.
  - reflexivity.
  - reflexivity.
  - reflexivity.
Defined.


Lemma bestmove_sentinel_after_late_line_instance :
  exists sf',
    UciWrapper.bestmove Sample.show_250
      {| UciWrapper.sent := [];
         UciWrapper.pending :=
           [ {| UciWrapper.at_ms := 21000; UciWrapper.text := "info depth 30" |};
             {| UciWrapper.at_ms := 21001; UciWrapper.text := "bestmove e1e2" |} ];
         UciWrapper.clock := 0 |}
      "8/8/8/4k3/8/8/4K3/4R3 w - - 0 1" 250
    = UciWrapper.Returns "0000" sf'.
Proof.
  apply (bestmove_sentinel_after_late_line Sample.show_250 _ _ _
           {| UciWrapper.at_ms := 21000; UciWrapper.text := "info depth 30" |}
           [ {| UciWrapper.at_ms := 21001; UciWrapper.text := "bestmove e1e2" |} ]).
  - reflexivity.
  - split; reflexivity.
  - simpl. lia.
Defined.


(* ------------------------------------------------------------------ *)
(** ** The relay: what it prints and what it sends *)
(* ------------------------------------------------------------------ *)

Section RelayOutput.
Import UciWrapper.

Variable show : Z -> string.
Variable show3 : Q -> string.
Variable post : string -> Z -> Exchange.

(** A search prints an information line and an announcement. *)
Lemma go_prints st sf out sf' :
  go show show3 post st sf = Returns out sf' ->
  exists msg m, out = [log msg; ("bestmove " ++ m)%string].
Proof.
  unfold go. destruct (fen_to_use st sf) as [fen sf1|]; [|discriminate].
  destruct (request_book_move post fen (ply_from_moves (current_moves_uci st)))
    as [[move source] conf].
  destruct (option_truthy move).
  - intros [= <- _]. eexists _, _. reflexivity.
  - destruct (bestmove show sf1 fen DEFAULT_MOVETIME_MS) as [bm sf2|]; [|discriminate].
    intros [= <- _]. eexists _, _. reflexivity.
Qed.

Lemma fen_to_use_explicit st sf :
  current_fen st <> "startpos" -> fen_to_use st sf = Returns (current_fen st) sf.
Proof.
  intros H. unfold fen_to_use. apply String.eqb_neq in H. now rewrite H.
Qed.

End RelayOutput.

(** X19: the relay prints nothing but protocol lines: the two identity
    lines, ["uciok"], ["readyok"], information lines starting with
    ["info string "] and best-move lines starting with ["bestmove "];
    position commands, unknown commands and [quit] print nothing. *)
Theorem relay_prints_protocol_lines_only :
  forall show show3 post stdin st sf out sf',
    UciWrapper.main_loop show show3 post stdin st sf = UciWrapper.Returns out sf' ->
    Forall protocol_line out.
Proof.
  intros show show3 post stdin.
  induction stdin as [|raw rest IH]; intros st sf out sf' H.
  - injection H as <- _. constructor.
  - cbn [UciWrapper.main_loop] in H.
    destruct (negb (PyStr.truthy raw)); [injection H as <- _; constructor|].
    destruct (String.eqb (PyStr.strip raw) "uci").
    { destruct (UciWrapper.main_loop show show3 post rest st sf) as [out0 sf0|] eqn:E;
        [|discriminate].
      injection H as <- _. specialize (IH _ _ _ _ E).
      repeat (constructor; [left; simpl; auto|]). exact IH. }
    destruct (String.eqb (PyStr.strip raw) "isready").
    { destruct (UciWrapper.main_loop show show3 post rest st sf) as [out0 sf0|] eqn:E;
        [|discriminate].
      injection H as <- _. specialize (IH _ _ _ _ E).
      constructor; [left; simpl; auto|exact IH]. }
    destruct (PyStr.startswith (PyStr.strip raw) "position "); [eapply IH; eassumption|].
    destruct (PyStr.startswith (PyStr.strip raw) "go").
    { destruct (UciWrapper.go show show3 post st sf) as [printed sf1|] eqn:Ego;
        [|discriminate].
      destruct (UciWrapper.main_loop show show3 post rest st sf1) as [out0 sf0|] eqn:E;
        [|discriminate].
      injection H as <- _. specialize (IH _ _ _ _ E).
      destruct (go_prints _ _ _ _ _ _ _ Ego) as (msg & m & ->).
      cbn [app]. constructor; [right; left; reflexivity|].
      constructor; [right; right; reflexivity|exact IH]. }
    destruct (String.eqb (PyStr.strip raw) "quit"); [injection H as <- _; constructor|].
    eapply IH; eassumption.
Qed.

Lemma relay_prints_protocol_lines_only_instance :
  Forall protocol_line
    ["id name capo298bot-uci"; "id author you"; "uciok"; "readyok";
     "info string sf e1e2"; "bestmove e1e2"].
Proof.
  apply (relay_prints_protocol_lines_only Sample.show_250 Sample.show_0 Sample.unreachable
           ["uci"; "isready"; "position fen 8/8/8/4k3/8/8/4K3/4R3 w - - 0 1";
            "go movetime 250"; "quit"]
           UciWrapper.initial_session Sample.prompt_engine _
           {| UciWrapper.sent :=
                ["position fen 8/8/8/4k3/8/8/4K3/4R3 w - - 0 1"; "go movetime 250"; "quit"];
              UciWrapper.pending := [];
              UciWrapper.clock := 200 |}).
  reflexivity.
Defined.

(** X20: a book move is answered without the engine.  When the session's
    origin is an explicit position text and the move service hands over a
    move, the search returns with the engine exactly as it was: nothing
    was written to it and nothing read from it, and the one best-move
    line printed carries the service's move. *)
Theorem book_answer_leaves_engine_untouched :
  forall show show3 post st sf m,
    UciWrapper.current_fen st <> "startpos" ->
    accepted_move
      (post (UciWrapper.current_fen st)
            (UciWrapper.ply_from_moves (UciWrapper.current_moves_uci st))) = Some m ->
    exists out,
      UciWrapper.go show show3 post st sf = UciWrapper.Returns out sf /\
      bestmove_lines out = [("bestmove " ++ m)%string].
Proof.
  intros show show3 post st sf m Hfen Hacc.
  apply (go_accepted show show3 post st sf (UciWrapper.current_fen st) sf m);
    [now apply fen_to_use_explicit|exact Hacc].
Qed.

Lemma book_answer_leaves_engine_untouched_instance :
  exists out,
    UciWrapper.go Sample.show_250 Sample.show_0
      (fun _ _ => UciWrapper.Body
                    {| MoveService.move := Some "e1e2";
                       MoveService.source := "opening_book";
                       MoveService.confidence := 1 |})
      Sample.explicit_session Sample.silent_engine
    = UciWrapper.Returns out Sample.silent_engine /\
    bestmove_lines out = ["bestmove e1e2"].
Proof.
  apply (book_answer_leaves_engine_untouched Sample.show_250 Sample.show_0
           (fun _ _ => UciWrapper.Body
                         {| MoveService.move := Some "e1e2";
                            MoveService.source := "opening_book";
                            MoveService.confidence := 1 |})
           Sample.explicit_session Sample.silent_engine "e1e2").
  - discriminate.
  - reflexivity.
Defined.

(* ------------------------------------------------------------------ *)
(** ** The engine process manager: handshake and reads *)
(* ------------------------------------------------------------------ *)

Section EngineHandshake.
Import UciWrapper.

(** The lines [_read_until] collects: none before the last starts with
    the prefix, and the line it reports is the last one collected. *)
Lemma read_loop_lines sent0 prefix timeout_ms start reads :
  forall now lines res sf,
    Forall (fun l => PyStr.startswith l prefix = false) lines ->
    read_loop sent0 prefix timeout_ms start now lines reads = Returns res sf ->
    now <= clock sf /\
    match snd res with
    | Some line =>
        PyStr.startswith line prefix = true /\
        exists init, fst res = init ++ [line] /\
                     Forall (fun l => PyStr.startswith l prefix = false) init
    | None => Forall (fun l => PyStr.startswith l prefix = false) (fst res)
    end.
Proof.
  induction reads as [|rd rest IH]; intros now lines res sf Hlines H.
  - cbn [read_loop] in H. destruct (now - start >? timeout_ms); [|discriminate].
    injection H as <- <-. simpl. split; [lia|exact Hlines].
  - cbn [read_loop] in H. destruct (now - start >? timeout_ms).
    { injection H as <- <-. simpl. split; [lia|exact Hlines]. }
    destruct (negb (PyStr.truthy (text rd))).
    { injection H as <- <-. simpl. split; [lia|exact Hlines]. }
    destruct (PyStr.startswith (PyStr.strip (text rd)) prefix) eqn:Hp.
    { injection H as <- <-. simpl. split; [lia|]. split; [exact Hp|].
      exists lines. split; [reflexivity|exact Hlines]. }
    apply IH in H.
    + destruct H as [Hclock Hres]. split; [lia|exact Hres].
    + apply Forall_app. split; [exact Hlines|]. constructor; [exact Hp|constructor].
Qed.

End EngineHandshake.

(** X21: what [_read_until] hands back when it returns: the clock has not
    gone back; if it reports a line, that line starts with the prefix and
    is the last of the lines collected, none of the earlier ones starting
    with the prefix; if it reports none, no collected line starts with
    the prefix. *)
Theorem read_until_reports_first_matching_line :
  forall sf prefix timeout_ms lines found sf',
    UciWrapper._read_until sf prefix timeout_ms = UciWrapper.Returns (lines, found) sf' ->
    UciWrapper.clock sf <= UciWrapper.clock sf' /\
    match found with
    | Some line =>
        PyStr.startswith line prefix = true /\
        exists init, lines = init ++ [line] /\
                     Forall (fun l => PyStr.startswith l prefix = false) init
    | None => Forall (fun l => PyStr.startswith l prefix = false) lines
    end.
Proof.
  intros sf prefix timeout_ms lines found sf' H. unfold UciWrapper._read_until in H.
  exact (read_loop_lines _ _ _ _ _ _ _ (lines, found) sf' (Forall_nil _) H).
Qed.

Lemma read_until_reports_first_matching_line_instance :
  UciWrapper.clock Sample.prompt_engine <= 200 /\
  PyStr.startswith "bestmove e1e2 ponder e5d5" "bestmove" = true /\
  exists init,
    ["info depth 1 score cp 20"; "bestmove e1e2 ponder e5d5"]
    = init ++ ["bestmove e1e2 ponder e5d5"] /\
    Forall (fun l => PyStr.startswith l "bestmove" = false) init.
Proof.
  apply (read_until_reports_first_matching_line Sample.prompt_engine "bestmove" 20000
           ["info depth 1 score cp 20"; "bestmove e1e2 ponder e5d5"]
           (Some "bestmove e1e2 ponder e5d5")
           {| UciWrapper.sent := []; UciWrapper.pending := []; UciWrapper.clock := 200 |}).
  reflexivity.
Defined.



(* ------------------------------------------------------------------ *)
(** ** Fields of a text *)
(* ------------------------------------------------------------------ *)

Section Fields.

Lemma map_strings_of_chars ws :
  map string_of_list_ascii (map list_ascii_of_string ws) = ws.
Proof.
  rewrite map_map. rewrite <- (map_id ws) at 2.
  apply map_ext. intros w. apply string_of_list_ascii_of_string.
Qed.

(** Splitting what [" ".join] made of fields gives the fields back. *)
Lemma split_join_fields ws :
  Forall field ws -> PyStr.split (PyStr.join " " ws) = ws.
Proof.
  intros H. unfold PyStr.split, PyStr.join.
  rewrite list_ascii_of_string_of_list_ascii.
  change (list_ascii_of_string " ") with [" "%char].
  rewrite split_words_join; [apply map_strings_of_chars|].
  unfold field in H. induction H; simpl; constructor; auto.
Qed.

Lemma index_found pre x post :
  ~ In x pre -> PyStr.index (pre ++ x :: post) x = Some (List.length pre).
Proof.
  induction pre as [|y pre IH]; intros H; simpl.
  - now rewrite String.eqb_refl.
  - destruct (String.eqb y x) eqn:E.
    + apply String.eqb_eq in E. subst y. exfalso. apply H. now left.
    + rewrite IH; [reflexivity|]. intros Hin. apply H. now right.
Qed.

Lemma index_missing xs x : ~ In x xs -> PyStr.index xs x = None.
Proof.
  induction xs as [|y xs IH]; intros H; simpl; [reflexivity|].
  destruct (String.eqb y x) eqn:E.
  - apply String.eqb_eq in E. subst y. exfalso. apply H. now left.
  - rewrite IH; [reflexivity|]. intros Hin. apply H. now right.
Qed.

Lemma field_position : field "position".
Proof. split; [discriminate|repeat constructor]. Qed.

Lemma field_fen : field "fen".
Proof. split; [discriminate|repeat constructor]. Qed.

Lemma field_startpos : field "startpos".
Proof. split; [discriminate|repeat constructor]. Qed.

Lemma field_moves : field "moves".
Proof. split; [discriminate|repeat constructor]. Qed.

End Fields.

(** X23: a position command is read back field by field.  For fields
    [fs] of a position text, none of them the word ["moves"], and move
    fields [ms]: the command ["position fen fs moves ms"] sets the origin
    to the fields [fs] joined by single blanks and the move list to [ms];
    without ["moves"] the move list is empty; and ["position startpos
    moves ms"] sets the origin ["startpos"] and the move list [ms], so
    that the ply sent with the next search is the number of moves. *)
Theorem position_command_is_read_back :
  forall (fs ms : list string) (st : UciWrapper.Session),
    Forall field fs -> Forall field ms -> ~ In "moves" fs ->
    UciWrapper.fen_from_position_cmd
      (PyStr.join " " ("position" :: "fen" :: fs ++ "moves" :: ms)) st
    = {| UciWrapper.current_fen := PyStr.join " " fs;
         UciWrapper.current_moves_uci := ms |}
    /\ UciWrapper.fen_from_position_cmd
         (PyStr.join " " ("position" :: "fen" :: fs)) st
       = {| UciWrapper.current_fen := PyStr.join " " fs;
            UciWrapper.current_moves_uci := [] |}
    /\ UciWrapper.fen_from_position_cmd
         (PyStr.join " " ("position" :: "startpos" :: "moves" :: ms)) st
       = {| UciWrapper.current_fen := "startpos";
            UciWrapper.current_moves_uci := ms |}
    /\ UciWrapper.ply_from_moves ms = Z.of_nat (List.length ms).
Proof.
  intros fs ms st Hfs Hms Hno.
  assert (Hnot : ~ In "moves" ("position" :: "fen" :: fs)).
  { intros [E|[E|Hin]]; [discriminate E|discriminate E|contradiction]. }
  split; [|split; [|split; [|reflexivity]]].
  - unfold UciWrapper.fen_from_position_cmd.
    rewrite split_join_fields.
    2:{ constructor; [apply field_position|]. constructor; [apply field_fen|].
        apply Forall_app. split; [exact Hfs|]. constructor; [apply field_moves|exact Hms]. }
    change ("position" :: "fen" :: fs ++ "moves" :: ms)
      with (("position" :: "fen" :: fs) ++ "moves" :: ms).
    rewrite (index_found _ _ _ Hnot).
    replace (PyStr.len (("position" :: "fen" :: fs) ++ "moves" :: ms) <? 2) with false.
    2:{ symmetry. apply Z.ltb_ge. unfold PyStr.len. simpl. lia. }
    cbn [app nth String.eqb Ascii.eqb Bool.eqb andb].
    change ("position" :: "fen" :: fs ++ "moves" :: ms)
      with (("position" :: "fen" :: fs) ++ "moves" :: ms).
    rewrite firstn_app, firstn_all, Nat.sub_diag. cbn [firstn]. rewrite app_nil_r.
    cbn [skipn]. f_equal.
    replace (List.length ("position" :: "fen" :: fs) + 1)%nat
      with (List.length (("position" :: "fen" :: fs) ++ ["moves"])).
    2:{ rewrite length_app. reflexivity. }
    change (("position" :: "fen" :: fs) ++ "moves" :: ms)
      with (("position" :: "fen" :: fs) ++ ["moves"] ++ ms).
    rewrite app_assoc, skipn_app, skipn_all, Nat.sub_diag. reflexivity.
  - unfold UciWrapper.fen_from_position_cmd.
    rewrite split_join_fields.
    2:{ constructor; [apply field_position|]. constructor; [apply field_fen|exact Hfs]. }
    rewrite (index_missing _ _ Hnot).
    replace (PyStr.len ("position" :: "fen" :: fs) <? 2) with false.
    2:{ symmetry. apply Z.ltb_ge. unfold PyStr.len. simpl. lia. }
    reflexivity.
  - unfold UciWrapper.fen_from_position_cmd.
    rewrite split_join_fields.
    2:{ constructor; [apply field_position|]. constructor; [apply field_startpos|].
        constructor; [apply field_moves|exact Hms]. }
    replace (PyStr.len ("position" :: "startpos" :: "moves" :: ms) <? 2) with false.
    2:{ symmetry. apply Z.ltb_ge. unfold PyStr.len. simpl. lia. }
    reflexivity.
Qed.

Lemma position_command_is_read_back_instance :
  UciWrapper.fen_from_position_cmd
    (PyStr.join " " ("position" :: "fen" ::
                     ["8/8/8/4k3/8/8/4K3/4R3"; "w"; "-"; "-"; "0"; "1"] ++
                     "moves" :: ["e1e2"; "e5d5"]))
    UciWrapper.initial_session
  = {| UciWrapper.current_fen :=
         PyStr.join " " ["8/8/8/4k3/8/8/4K3/4R3"; "w"; "-"; "-"; "0"; "1"];
       UciWrapper.current_moves_uci := ["e1e2"; "e5d5"] |}.
Proof.
  apply (position_command_is_read_back
           ["8/8/8/4k3/8/8/4K3/4R3"; "w"; "-"; "-"; "0"; "1"] ["e1e2"; "e5d5"]
           UciWrapper.initial_session).
  - repeat (constructor; [split; [discriminate|repeat constructor]|]). constructor.
  - repeat (constructor; [split; [discriminate|repeat constructor]|]). constructor.
  - simpl. intuition discriminate.
Defined.

(** X24: the position key of a text of at least four fields is its first
    four fields joined by single blanks; two such texts that agree on
    piece placement, side to move, castling rights and en-passant square
    have the same key, whatever their move counters are. *)
Theorem position_key_is_first_four_fields :
  forall ws ws' : list string,
    Forall field ws -> Forall field ws' ->
    (4 <= List.length ws)%nat -> (4 <= List.length ws')%nat ->
    MoveService.normalize_fen (PyStr.join " " ws) = PyStr.join " " (firstn 4 ws) /\
    (firstn 4 ws = firstn 4 ws' ->
     MoveService.normalize_fen (PyStr.join " " ws)
     = MoveService.normalize_fen (PyStr.join " " ws')).
Proof.
  assert (Hkey : forall ws, Forall field ws -> (4 <= List.length ws)%nat ->
            MoveService.normalize_fen (PyStr.join " " ws) = PyStr.join " " (firstn 4 ws)).
  { intros ws Hws Hlen. unfold MoveService.normalize_fen.
    rewrite (split_join_fields ws Hws).
    replace (PyStr.len ws <? 4) with false; [reflexivity|].
    symmetry. apply Z.ltb_ge. unfold PyStr.len. lia. }
  intros ws ws' Hws Hws' Hlen Hlen'. split; [now apply Hkey|].
  intros E. rewrite (Hkey ws Hws Hlen), (Hkey ws' Hws' Hlen'). now rewrite E.
Qed.

Lemma position_key_is_first_four_fields_instance :
  MoveService.normalize_fen
    (PyStr.join " " ["8/8/8/4k3/8/8/4K3/4R3"; "w"; "-"; "-"; "0"; "1"])
  = MoveService.normalize_fen
      (PyStr.join " " ["8/8/8/4k3/8/8/4K3/4R3"; "w"; "-"; "-"; "12"; "40"]).
Proof.
  apply (proj2 (position_key_is_first_four_fields
                  ["8/8/8/4k3/8/8/4K3/4R3"; "w"; "-"; "-"; "0"; "1"]
                  ["8/8/8/4k3/8/8/4K3/4R3"; "w"; "-"; "-"; "12"; "40"]
                  ltac:(repeat (constructor; [split; [discriminate|repeat constructor]|]);
                        constructor)
                  ltac:(repeat (constructor; [split; [discriminate|repeat constructor]|]);
                        constructor)
                  ltac:(simpl; lia) ltac:(simpl; lia))).
  reflexivity.
Defined.

(* ------------------------------------------------------------------ *)
(** ** The relay: what it writes to the engine *)
(* ------------------------------------------------------------------ *)

Section EngineCommands.
Import UciWrapper.

Lemma read_loop_sent sent0 prefix timeout_ms start reads :
  forall now lines res sf,
    read_loop sent0 prefix timeout_ms start now lines reads = Returns res sf ->
    sent sf = sent0.
Proof.
  induction reads as [|rd rest IH]; intros now lines res sf H; cbn [read_loop] in H.
  - destruct (now - start >? timeout_ms); [|discriminate]. now injection H as _ <-.
  - destruct (now - start >? timeout_ms); [now injection H as _ <-|].
    destruct (negb (PyStr.truthy (text rd))); [now injection H as _ <-|].
    destruct (PyStr.startswith _ prefix); [now injection H as _ <-|].
    eapply IH. eassumption.
Qed.

Lemma read_fen_line_sent sent0 start reads :
  forall now res sf,
    read_fen_line sent0 start now reads = Returns res sf -> sent sf = sent0.
Proof.
  induction reads as [|rd rest IH]; intros now res sf H; cbn [read_fen_line] in H.
  - destruct (now - start <? 2000); [discriminate|]. now injection H as _ <-.
  - destruct (now - start <? 2000); [|now injection H as _ <-].
    destruct (negb (PyStr.truthy (text rd))); [now injection H as _ <-|].
    destruct (PyStr.startswith _ "Fen:"); [now injection H as _ <-|].
    eapply IH. eassumption.
Qed.

Lemma bestmove_sent show sf fen ms bm sf' :
  bestmove show sf fen ms = Returns bm sf' ->
  sent sf' = sent sf ++ [("position fen " ++ fen)%string;
                         ("go movetime " ++ show ms)%string].
Proof.
  unfold bestmove, _read_until. cbn [_send sent pending clock].
  match goal with
  | |- context [read_loop ?s ?p ?t ?st ?n ?l ?r] =>
      destruct (read_loop s p t st n l r) as [[lines line] sf1|] eqn:E
  end; [|discriminate].
  apply read_loop_sent in E. intros H.
  assert (Hsf : sf' = sf1).
  { destruct line as [line|]; [destruct (negb (PyStr.truthy line))|];
      now injection H as _ <-. }
  subst sf'. rewrite E, <- app_assoc. reflexivity.
Qed.

Lemma fen_to_use_sent st sf fen sf' :
  fen_to_use st sf = Returns fen sf' -> exists cmds, sent sf' = sent sf ++ cmds.
Proof.
  unfold fen_to_use. destruct (String.eqb (current_fen st) "startpos").
  - cbn [_send sent pending clock].
    match goal with
    | |- context [read_fen_line ?s ?a ?b ?c] =>
        destruct (read_fen_line s a b c) as [line sf1|] eqn:E
    end; [|discriminate].
    apply read_fen_line_sent in E. intros [= _ <-].
    rewrite E, <- app_assoc. eauto.
  - intros [= _ <-]. exists []. now rewrite app_nil_r.
Qed.

Lemma go_sent show show3 post st sf out sf' :
  go show show3 post st sf = Returns out sf' -> exists cmds, sent sf' = sent sf ++ cmds.
Proof.
  unfold go. destruct (fen_to_use st sf) as [fen sf1|] eqn:Hfen; [|discriminate].
  destruct (fen_to_use_sent _ _ _ _ Hfen) as (cmds1 & E1).
  destruct (request_book_move post fen (ply_from_moves (current_moves_uci st)))
    as [[move source] conf].
  destruct (option_truthy move).
  - intros [= _ <-]. eauto.
  - destruct (bestmove show sf1 fen DEFAULT_MOVETIME_MS) as [bm sf2|] eqn:Hbm;
      [|discriminate].
    intros [= _ <-]. rewrite (bestmove_sent _ _ _ _ _ _ Hbm), E1, <- app_assoc. eauto.
Qed.

End EngineCommands.

(** X25: whenever the relay loop ends, on [quit] or when the host closes
    its stream, the last thing written to the engine is ["quit"], and
    everything written to the engine before the loop is still there in
    front of what the loop wrote. *)
Theorem relay_quits_engine_at_end :
  forall show show3 post stdin st sf out sf',
    UciWrapper.main_loop show show3 post stdin st sf = UciWrapper.Returns out sf' ->
    exists cmds, UciWrapper.sent sf' = UciWrapper.sent sf ++ cmds ++ ["quit"].
Proof.
  intros show show3 post stdin.
  assert (Hquit : forall sf, exists cmds,
            UciWrapper.sent (UciWrapper.quit sf) = UciWrapper.sent sf ++ cmds ++ ["quit"]).
  { intros sf. exists []. reflexivity. }
  induction stdin as [|raw rest IH]; intros st sf out sf' H.
  - injection H as _ <-. apply Hquit.
  - cbn [UciWrapper.main_loop] in H.
    destruct (negb (PyStr.truthy raw)); [injection H as _ <-; apply Hquit|].
    destruct (String.eqb (PyStr.strip raw) "uci").
    { destruct (UciWrapper.main_loop show show3 post rest st sf) as [out0 sf0|] eqn:E;
        [|discriminate].
      injection H as _ <-. eapply IH. eassumption. }
    destruct (String.eqb (PyStr.strip raw) "isready").
    { destruct (UciWrapper.main_loop show show3 post rest st sf) as [out0 sf0|] eqn:E;
        [|discriminate].
      injection H as _ <-. eapply IH. eassumption. }
    destruct (PyStr.startswith (PyStr.strip raw) "position "); [eapply IH; eassumption|].
    destruct (PyStr.startswith (PyStr.strip raw) "go").
    { destruct (UciWrapper.go show show3 post st sf) as [printed sf1|] eqn:Ego;
        [|discriminate].
      destruct (UciWrapper.main_loop show show3 post rest st sf1) as [out0 sf0|] eqn:E;
        [|discriminate].
      injection H as _ <-.
      destruct (go_sent _ _ _ _ _ _ _ Ego) as (cmds1 & E1).
      destruct (IH _ _ _ _ E) as (cmds2 & E2).
      exists (cmds1 ++ cmds2). rewrite E2, E1, <- !app_assoc. reflexivity. }
    destruct (String.eqb (PyStr.strip raw) "quit"); [injection H as _ <-; apply Hquit|].
    eapply IH; eassumption.
Qed.

Lemma relay_quits_engine_at_end_instance :
  exists cmds,
    ["position fen 8/8/8/4k3/8/8/4K3/4R3 w - - 0 1"; "go movetime 250"; "quit"]
    = UciWrapper.sent Sample.prompt_engine ++ cmds ++ ["quit"].
Proof.
  apply (relay_quits_engine_at_end Sample.show_250 Sample.show_0 Sample.unreachable
           ["uci"; "isready"; "position fen 8/8/8/4k3/8/8/4K3/4R3 w - - 0 1";
            "go movetime 250"]
           UciWrapper.initial_session Sample.prompt_engine
           ["id name capo298bot-uci"; "id author you"; "uciok"; "readyok";
            "info string sf e1e2"; "bestmove e1e2"]
           {| UciWrapper.sent :=
                ["position fen 8/8/8/4k3/8/8/4K3/4R3 w - - 0 1"; "go movetime 250"; "quit"];
              UciWrapper.pending := [];
              UciWrapper.clock := 200 |}).
  reflexivity.
Defined.

(** X26: the relay in front of the move service.  When the exchange is
    the service's [get_move] on the session's explicit position and the
    relay announces a book move, that move is a legal move of the
    position the chess library parsed from the session's text, and it is
    the only best-move line of the search. *)
Theorem relay_announces_only_legal_book_moves :
  forall show show3 chess_Board positions meta draw st sf m,
    UciWrapper.current_fen st <> "startpos" ->
    accepted_move
      (service_exchange chess_Board positions meta draw (UciWrapper.current_fen st)
         (UciWrapper.ply_from_moves (UciWrapper.current_moves_uci st))) = Some m ->
    (exists board,
        chess_Board (UciWrapper.current_fen st) = Some board /\
        In m (MoveService.legal_moves board)) /\
    exists out,
      UciWrapper.go show show3 (service_exchange chess_Board positions meta draw) st sf
      = UciWrapper.Returns out sf /\
      bestmove_lines out = [("bestmove " ++ m)%string].
Proof.
  intros show show3 cb positions meta draw st sf m Hfen Hacc. split.
  - unfold service_exchange, accepted_move in Hacc.
    destruct (MoveService.get_move cb positions meta _ draw) as [resp|e] eqn:Hres;
      [|discriminate].
    destruct (MoveService.move resp) as [m'|] eqn:Hm; [|discriminate].
    destruct (PyStr.truthy m'); [|discriminate]. injection Hacc as ->.
    pose proof (get_move_outcome cb positions meta
                  {| MoveService.fen := UciWrapper.current_fen st;
                     MoveService.ply :=
                       UciWrapper.ply_from_moves (UciWrapper.current_moves_uci st);
                     MoveService.mode := "capo298bot" |} draw) as Hout.
    cbv zeta in Hout. rewrite Hres in Hout. unfold MoveService.reject in Hout.
    cbn [MoveService.fen] in Hout.
    destruct Hout as [[_ E]|(board & Hb & Hout)];
      [injection E as ->; discriminate|].
    exists board. split; [exact Hb|].
    destruct Hout as [E|[E|(entry & total & moves & _ & _ & _ & _ & _ & Hout)]];
      try (injection E as ->; discriminate).
    destruct Hout as [E|[E|[E|[[_ E]|(chosen & _ & Hout)]]]];
      try (injection E as ->; discriminate); try discriminate.
    destruct Hout as [[Hleg E]|[(_ & pre & uci & c & post & _ & _ & Hleg & E)|(_ & _ & E)]];
      injection E as ->; simpl in Hm; try discriminate; injection Hm as <-; exact Hleg.
  - apply (go_accepted show show3 _ st sf (UciWrapper.current_fen st) sf m);
      [now apply fen_to_use_explicit|exact Hacc].
Qed.

Lemma relay_announces_only_legal_book_moves_instance :
  (exists board,
      Sample.only_start "startpos-fen" = Some board /\
      In "e2e4" (MoveService.legal_moves board)) /\
  exists out,
    UciWrapper.go Sample.show_250 Sample.show_0
      (service_exchange Sample.only_start (Sample.book [("e2e4", 8)] 8) Sample.no_meta 3)
      {| UciWrapper.current_fen := "startpos-fen"; UciWrapper.current_moves_uci := [] |}
      Sample.silent_engine
    = UciWrapper.Returns out Sample.silent_engine /\
    bestmove_lines out = ["bestmove e2e4"].
Proof.
  apply (relay_announces_only_legal_book_moves Sample.show_250 Sample.show_0
           Sample.only_start (Sample.book [("e2e4", 8)] 8) Sample.no_meta 3
           {| UciWrapper.current_fen := "startpos-fen";
              UciWrapper.current_moves_uci := [] |}
           Sample.silent_engine "e2e4").
  - discriminate.
  - reflexivity.
Defined.

(* ------------------------------------------------------------------ *)
(** ** The relay: the position text of a session from the start *)
(* ------------------------------------------------------------------ *)

Section StartposResolution.
Import UciWrapper.




End StartposResolution.


